(** * My-Padi: the session core of [src/App.tsx]

    A shallow embedding of the asynchronous handlers of the [App] component:
    profile hydration, the points ledger, the merge-patch operations and the
    realtime merge of the chat transcript.

    Every handler is a program over a small set of events (React state
    setters, Supabase queries, browser calls).  Running a program against a
    [World] threads the React state, the remote [profiles] table and the
    browser through it, one event at a time, in the order of the source. *)

From stdpp Require Import gmap strings list.
From Stdlib Require Import ZArith Ascii String.

Local Open Scope string_scope.
Local Open Scope Z_scope.

(* ===================================================================== *)
(** ** Data model (App.tsx, lines 17-54) *)
(* ===================================================================== *)

Inductive SubscriptionTier := Free | Basic | Standard | Premium | Admin.

(** [AiProfileInfo]: a JS object used as a map from keys to strings. *)
Abbreviation AiProfileInfo := (gmap string string).

Module ChatMessage.
Inductive Role := user | model.

Record t := mk {
  id : option string;
  role : Role;
  content : string;
  created_at : option string;
  user_id : option string
}.
End ChatMessage.

(** [UserData], the columns of a profile besides its key.  The JSON column
    [ai_profile_info] may be null in a stored row. *)
Record UserData := {
  tier : SubscriptionTier;
  points : Z;
  is_admin : bool;
  ai_profile_info : option AiProfileInfo;
  basket_items : list string
}.

(** A row of the [profiles] table as a query returns it. *)
Record ProfileRow := {
  id : string;
  columns :> UserData
}.

(** [CurrentUser]: a profile row spread together with [email] and
    [language], as in [{ ...profile, email, language }]. *)
Record CurrentUser := {
  row :> ProfileRow;
  email : option string;
  language : string
}.

(** The identity the authentication provider reports. *)
Record AuthUser := {
  uid : string;
  mail : option string
}.

(** Object spread with one overriding field, [{ ...u, f: v }]. *)
Definition set_points (p : Z) (d : UserData) : UserData :=
  {| tier := tier d; points := p; is_admin := is_admin d;
     ai_profile_info := ai_profile_info d; basket_items := basket_items d |}.

Definition set_tier (t : SubscriptionTier) (d : UserData) : UserData :=
  {| tier := t; points := points d; is_admin := is_admin d;
     ai_profile_info := ai_profile_info d; basket_items := basket_items d |}.

Definition set_ai_profile_info (m : option AiProfileInfo) (d : UserData) : UserData :=
  {| tier := tier d; points := points d; is_admin := is_admin d;
     ai_profile_info := m; basket_items := basket_items d |}.

Definition set_basket_items (l : list string) (d : UserData) : UserData :=
  {| tier := tier d; points := points d; is_admin := is_admin d;
     ai_profile_info := ai_profile_info d; basket_items := l |}.

Definition on_columns (f : UserData -> UserData) (u : CurrentUser) : CurrentUser :=
  {| row := {| id := id u; columns := f u |};
     email := email u; language := language u |}.

Definition on_row (f : UserData -> UserData) (r : ProfileRow) : ProfileRow :=
  {| id := id r; columns := f r |}.

Definition set_language (l : string) (u : CurrentUser) : CurrentUser :=
  {| row := row u; email := email u; language := l |}.

(* ===================================================================== *)
(** ** JavaScript helpers *)
(* ===================================================================== *)

(** Truthiness of a [string | undefined]: undefined and the empty string are
    falsy. *)
Definition truthy (o : option string) : bool :=
  match o with
  | Some s => negb (String.eqb s "")
  | None => false
  end.

(** [o || d] on a [string | undefined]. *)
Definition or_else (o : option string) (d : string) : string :=
  match o with
  | Some s => if String.eqb s "" then d else s
  | None => d
  end.

(** [{ ...base, ...over }]: the keys of [over] win. *)
Definition spread (base over : AiProfileInfo) : AiProfileInfo := over ∪ base.

(** [String.prototype.toLowerCase] on the ASCII range; other bytes are kept. *)
Definition lower_ascii (c : ascii) : ascii :=
  let n := nat_of_ascii c in
  if ((65 <=? n) && (n <=? 90))%nat then ascii_of_nat (n + 32) else c.

Fixpoint toLowerCase (s : string) : string :=
  match s with
  | EmptyString => EmptyString
  | String c r => String (lower_ascii c) (toLowerCase r)
  end.

(** [Array.prototype.includes] on strings. *)
Definition includes (l : list string) (s : string) : bool :=
  bool_decide (s ∈ l).

(* ===================================================================== *)
(** ** Constants (App.tsx, lines 56-69) *)
(* ===================================================================== *)

Definition initialMessage : ChatMessage.t :=
  ChatMessage.mk None ChatMessage.model
    "Hi there! I'm Padi. Please sign in or create an account to start chatting."
    None None.

Definition welcomeMessage : ChatMessage.t :=
  ChatMessage.mk None ChatMessage.model "Welcome! I'm Padi. Let's have a chat." None None.

Module POINTS_CONFIG.
Definition liveConversationStart : Z := 50.
Definition textToSpeechChar : Z := 1.
Definition lowLatencyMessage : Z := 5.
End POINTS_CONFIG.

(** The array literal of the allow-list, before [.map]. *)
Definition ADMIN_EMAILS_literal : list string :=
  [ "samfolarvic@gmail.com"; "test@example.dev"; "super@user.com" ].

Definition ADMIN_EMAILS : list string :=
  List.map toLowerCase ADMIN_EMAILS_literal.

Definition defaultAiProfileInfo : AiProfileInfo :=
  {[ "Name" := "Padi"; "Location" := "the cloud";
     "Interests" := "learning new things and chatting";
     "language" := "English" ]}.

(* ===================================================================== *)
(** ** Events and programs *)
(* ===================================================================== *)

(** Errors a Supabase response can carry. *)
Inductive PgError :=
| NoRows            (* PGRST116: [.single()] matched no row *)
| UniqueViolation   (* 23505: the primary key is taken *)
| NetworkError.

(** What a [catch] block can receive. *)
Inductive Exn :=
| ExnPg (e : PgError)
| TypeError.

(** [{ data, error }] of a query on [profiles]. *)
Record Response := {
  data : option ProfileRow;
  error : option PgError
}.

(** The partial object handed to [.update(...)]. *)
Record ProfilePatch := {
  patch_tier : option SubscriptionTier;
  patch_points : option Z;
  patch_ai_profile_info : option AiProfileInfo;
  patch_basket_items : option (list string)
}.

(** The query chains the file builds on [supabase.from('profiles')]. *)
Inductive Request :=
| SelectEqSingle (key : string)
    (* .select('*').eq('id', key).single() *)
| UpdateEq (p : ProfilePatch) (key : string)
    (* .update(p).eq('id', key) *)
| UpdateEqSelectSingle (p : ProfilePatch) (key : string)
    (* .update(p).eq('id', key).select().single() *)
| InsertSelectSingle (r : ProfileRow).
    (* .insert([r]).select().single() *)

Inductive EventType := INSERT | UPDATE | DELETE.

(** The payload of a realtime change on [messages]. *)
Record Payload := {
  eventType : EventType;
  new : ChatMessage.t
}.

Inductive Event : Type -> Type :=
| AuthGetUser : Event (option AuthUser)
| Supabase (q : Request) : Event Response
| SetCurrentUser (f : option CurrentUser -> option CurrentUser) : Event unit
| SetChatHistory (f : list ChatMessage.t -> list ChatMessage.t) : Event unit
| SetIsPricingModalOpen (b : bool) : Event unit
| SetIsCheckoutOpen (b : bool) : Event unit
| SetShowCookieConsent (b : bool) : Event unit
| Alert (msg : string) : Event unit
| ConsoleError (msg : string) : Event unit
| LocalStorageGetItem (key : string) : Event (option string).

(** An asynchronous function body: it returns, throws, or performs an event
    and continues with the answer. *)
Inductive Prog (A : Type) : Type :=
| Ret (a : A)
| Throw (e : Exn)
| Vis {R : Type} (ev : Event R) (k : R -> Prog A).

Arguments Ret {A} a.
Arguments Throw {A} e.
Arguments Vis {A R} ev k.

Fixpoint bind {A B : Type} (p : Prog A) (f : A -> Prog B) : Prog B :=
  match p with
  | Ret a => f a
  | Throw e => Throw e
  | Vis ev k => Vis ev (fun r => bind (k r) f)
  end.

(** [try { p } catch (e) { h e }]. *)
Fixpoint try_catch {A : Type} (p : Prog A) (h : Exn -> Prog A) : Prog A :=
  match p with
  | Ret a => Ret a
  | Throw e => h e
  | Vis ev k => Vis ev (fun r => try_catch (k r) h)
  end.

(** [try { p } finally { fin }]. *)
Fixpoint finally {A : Type} (p : Prog A) (fin : Prog unit) : Prog A :=
  match p with
  | Ret a => bind fin (fun _ => Ret a)
  | Throw e => bind fin (fun _ => Throw e)
  | Vis ev k => Vis ev (fun r => finally (k r) fin)
  end.

Definition trigger {R : Type} (ev : Event R) : Prog R := Vis ev Ret.

#[global] Instance prog_ret : MRet Prog := @Ret.
#[global] Instance prog_bind : MBind Prog := fun A B f p => bind p f.

Definition setCurrentUser (f : option CurrentUser -> option CurrentUser) : Prog unit :=
  trigger (SetCurrentUser f).
Definition setChatHistory (f : list ChatMessage.t -> list ChatMessage.t) : Prog unit :=
  trigger (SetChatHistory f).
Definition setIsPricingModalOpen (b : bool) : Prog unit :=
  trigger (SetIsPricingModalOpen b).
Definition setIsCheckoutOpen (b : bool) : Prog unit :=
  trigger (SetIsCheckoutOpen b).
Definition setShowCookieConsent (b : bool) : Prog unit :=
  trigger (SetShowCookieConsent b).
Definition alert (msg : string) : Prog unit := trigger (Alert msg).
Definition console_error (msg : string) : Prog unit := trigger (ConsoleError msg).
Definition supabase (q : Request) : Prog Response := trigger (Supabase q).

(** [if (error) throw error]. *)
Definition throw_if_error (r : Response) : Prog unit :=
  match error r with
  | Some e => Throw (ExnPg e)
  | None => Ret tt
  end.

(* ===================================================================== *)
(** ** The world a handler runs in *)
(* ===================================================================== *)

(** The [useState] cells of [App]. *)
Record AppState := {
  currentUser : option CurrentUser;
  chatHistory : list ChatMessage.t;
  isPricingModalOpen : bool;
  isCheckoutOpen : bool;
  showCookieConsent : bool
}.

(** What happens around one request: other sessions may have rewritten the
    table before it is served, and the request itself may fail to go
    through. *)
Record NetStep := {
  concurrent : gmap string UserData -> gmap string UserData;
  fault : option PgError
}.

Definition quiet : NetStep := {| concurrent := fun t => t; fault := None |}.

(** The remote side: the signed-in identity, the [profiles] table keyed by
    identity id, the steps awaiting the next requests, and the log of every
    request with the response it got. *)
Record Backend := {
  authUser : option AuthUser;
  profiles : gmap string UserData;
  network : list NetStep;
  wire : list (Request * Response)
}.

Record Browser := {
  console : list string;
  alerts : list string;
  cookieConsent : option string
}.

Record World := {
  react : AppState;
  remote : Backend;
  browser : Browser
}.

Definition ok (r : ProfileRow) : Response := {| data := Some r; error := None |}.
Definition failed (e : PgError) : Response := {| data := None; error := Some e |}.
Definition done_no_data : Response := {| data := None; error := None |}.

Definition apply_patch (p : ProfilePatch) (d : UserData) : UserData :=
  {| tier := default (tier d) (patch_tier p);
     points := default (points d) (patch_points p);
     is_admin := is_admin d;
     ai_profile_info :=
       match patch_ai_profile_info p with
       | Some m => Some m
       | None => ai_profile_info d
       end;
     basket_items := default (basket_items d) (patch_basket_items p) |}.

(** Modelled from the spec: the Profile collection of section 6, keyed by
    identity id, with get-by-key, insert and update; the client behind
    [./services/supabase] is not part of the sources.  [.single()] answers
    with an error when no row matches, an update without [.select()] carries
    no data, and an insert on a taken key is a uniqueness conflict. *)
Definition execute (q : Request) (tbl : gmap string UserData)
  : Response * gmap string UserData :=
  match q with
  | SelectEqSingle key =>
      match tbl !! key with
      | Some d => (ok {| id := key; columns := d |}, tbl)
      | None => (failed NoRows, tbl)
      end
  | UpdateEq p key => (done_no_data, alter (apply_patch p) key tbl)
  | UpdateEqSelectSingle p key =>
      match tbl !! key with
      | Some d => (ok {| id := key; columns := apply_patch p d |},
                   <[key := apply_patch p d]> tbl)
      | None => (failed NoRows, tbl)
      end
  | InsertSelectSingle r =>
      match tbl !! id r with
      | Some _ => (failed UniqueViolation, tbl)
      | None => (ok r, <[id r := columns r]> tbl)
      end
  end.

Definition next_step (b : Backend) : NetStep := hd quiet (network b).

(** The table as the next request finds it. *)
Definition table_seen (b : Backend) : gmap string UserData :=
  concurrent (next_step b) (profiles b).

(** Serving one request. *)
Definition respond (q : Request) (b : Backend) : Response * Backend :=
  let served :=
    match fault (next_step b) with
    | Some e => (failed e, table_seen b)
    | None => execute q (table_seen b)
    end in
  (served.1,
   {| authUser := authUser b; profiles := served.2;
      network := tl (network b); wire := wire b ++ [(q, served.1)] |}).

Definition with_react (f : AppState -> AppState) (w : World) : World :=
  {| react := f (react w); remote := remote w; browser := browser w |}.

Definition with_browser (f : Browser -> Browser) (w : World) : World :=
  {| react := react w; remote := remote w; browser := f (browser w) |}.

Definition handle {R : Type} (ev : Event R) (w : World) : R * World :=
  match ev in Event R return R * World with
  | AuthGetUser => (authUser (remote w), w)
  | Supabase q =>
      let served := respond q (remote w) in
      (served.1, {| react := react w; remote := served.2; browser := browser w |})
  | SetCurrentUser f =>
      (tt, with_react (fun s =>
        {| currentUser := f (currentUser s); chatHistory := chatHistory s;
           isPricingModalOpen := isPricingModalOpen s;
           isCheckoutOpen := isCheckoutOpen s;
           showCookieConsent := showCookieConsent s |}) w)
  | SetChatHistory f =>
      (tt, with_react (fun s =>
        {| currentUser := currentUser s; chatHistory := f (chatHistory s);
           isPricingModalOpen := isPricingModalOpen s;
           isCheckoutOpen := isCheckoutOpen s;
           showCookieConsent := showCookieConsent s |}) w)
  | SetIsPricingModalOpen b =>
      (tt, with_react (fun s =>
        {| currentUser := currentUser s; chatHistory := chatHistory s;
           isPricingModalOpen := b;
           isCheckoutOpen := isCheckoutOpen s;
           showCookieConsent := showCookieConsent s |}) w)
  | SetIsCheckoutOpen b =>
      (tt, with_react (fun s =>
        {| currentUser := currentUser s; chatHistory := chatHistory s;
           isPricingModalOpen := isPricingModalOpen s;
           isCheckoutOpen := b;
           showCookieConsent := showCookieConsent s |}) w)
  | SetShowCookieConsent b =>
      (tt, with_react (fun s =>
        {| currentUser := currentUser s; chatHistory := chatHistory s;
           isPricingModalOpen := isPricingModalOpen s;
           isCheckoutOpen := isCheckoutOpen s;
           showCookieConsent := b |}) w)
  | Alert msg =>
      (tt, with_browser (fun b =>
        {| console := console b; alerts := alerts b ++ [msg];
           cookieConsent := cookieConsent b |}) w)
  | ConsoleError msg =>
      (tt, with_browser (fun b =>
        {| console := console b ++ [msg]; alerts := alerts b;
           cookieConsent := cookieConsent b |}) w)
  | LocalStorageGetItem key =>
      ((if String.eqb key "cookieConsent" then cookieConsent (browser w) else None), w)
  end.

(** How an asynchronous call ends. *)
Inductive Outcome (A : Type) :=
| Returned (a : A)
| Uncaught (e : Exn).

Arguments Returned {A} a.
Arguments Uncaught {A} e.

Fixpoint run {A : Type} (p : Prog A) (w : World) : Outcome A * World :=
  match p with
  | Ret a => (Returned a, w)
  | Throw e => (Uncaught e, w)
  | Vis ev k => let step := handle ev w in run (k step.1) step.2
  end.

(** The exchanges a call added to the wire. *)
Definition exchanged (w w' : World) : list (Request * Response) :=
  drop (List.length (wire (remote w))) (wire (remote w')).

(** The last request of a call came back with an error. *)
Definition persist_failed (w w' : World) : Prop :=
  exists q r, last (exchanged w w') = Some (q, r) /\ is_Some (error r).

(** The last request of a call came back without an error. *)
Definition persist_succeeded (w w' : World) : Prop :=
  exists q r, last (exchanged w w') = Some (q, r) /\ error r = None.

(* ===================================================================== *)
(** ** The handlers of [App] *)
(* ===================================================================== *)

(** The object [{ ...profile, email: user.email,
    language: profile.ai_profile_info?.language || 'English' }]. *)
Definition session_of (profile : ProfileRow) (user : AuthUser) : CurrentUser :=
  {| row := profile;
     email := mail user;
     language := or_else (ai_profile_info profile ≫= (.!! "language")) "English" |}.

(** Effect 1 (lines 84-106): the callback of [onAuthStateChange]. *)
Definition provisionalUserData : UserData :=
  {| tier := Free; points := 0; is_admin := false;
     ai_profile_info := Some defaultAiProfileInfo; basket_items := [] |}.

Definition onAuthStateChange (session : option AuthUser) : Prog unit :=
  match session with
  | Some user =>
      setCurrentUser (fun prev =>
        Some {| row := {| id := uid user;
                          columns := from_option (fun p : CurrentUser => columns p)
                                       provisionalUserData prev |};
                email := mail user;
                language := or_else (language <$> prev) "English" |})
  | None => setCurrentUser (fun _ => None)
  end.

(** Lines 123-132: the back-fill of the personalization map. *)
Definition defaultProfileInfo : AiProfileInfo :=
  {[ "Name" := "Padi"; "Location" := "the cloud";
     "Interests" := "learning new things and chatting" ]}.

Definition needsUpdate (currentProfileInfo : AiProfileInfo) : bool :=
  negb (truthy (currentProfileInfo !! "Name"))
  || negb (truthy (currentProfileInfo !! "Location"))
  || negb (truthy (currentProfileInfo !! "Interests"))
  || negb (truthy (currentProfileInfo !! "language")).

Definition updatedAiInfo (currentProfileInfo : AiProfileInfo) : AiProfileInfo :=
  <["language" := or_else (currentProfileInfo !! "language") "English"]>
    (spread defaultProfileInfo currentProfileInfo).

(** Lines 144-152: the profile built for an identity without a row. *)
Definition isAdmin (user : AuthUser) : bool :=
  includes ADMIN_EMAILS (or_else (toLowerCase <$> mail user) "").

Definition newUserProfile (user : AuthUser) : ProfileRow :=
  {| id := uid user;
     columns :=
       {| tier := if isAdmin user then Admin else Free;
          points := 5000;
          is_admin := isAdmin user;
          ai_profile_info := Some defaultAiProfileInfo;
          basket_items := [] |} |}.

Definition ai_patch (m : AiProfileInfo) : ProfilePatch :=
  {| patch_tier := None; patch_points := None;
     patch_ai_profile_info := Some m; patch_basket_items := None |}.

Definition points_patch (p : Z) : ProfilePatch :=
  {| patch_tier := None; patch_points := Some p;
     patch_ai_profile_info := None; patch_basket_items := None |}.

Definition tier_points_patch (t : SubscriptionTier) (p : Z) : ProfilePatch :=
  {| patch_tier := Some t; patch_points := Some p;
     patch_ai_profile_info := None; patch_basket_items := None |}.

Definition basket_patch (l : list string) : ProfilePatch :=
  {| patch_tier := None; patch_points := None;
     patch_ai_profile_info := None; patch_basket_items := Some l |}.

(** Effect 2 (lines 111-170). *)
Definition fetchAndHydrateProfile : Prog unit :=
  got ← trigger AuthGetUser;
  match got with
  | None => mret tt
  | Some user =>
    finally
      (try_catch
        (fetched ← supabase (SelectEqSingle (uid user));
         match data fetched with
         | Some profile =>
             let currentProfileInfo := default ∅ (ai_profile_info profile) in
             profile ←
               (if needsUpdate currentProfileInfo then
                  let updatedAiInfo := updatedAiInfo currentProfileInfo in
                  updated ← supabase
                    (UpdateEqSelectSingle (ai_patch updatedAiInfo) (uid user));
                  (if error updated is Some _
                   then console_error "Error back-filling profile:"
                   else mret tt);;
                  mret (default (on_row (set_ai_profile_info (Some updatedAiInfo)) profile)
                          (data updated))
                else mret profile);
             setCurrentUser (fun _ => Some (session_of profile user))
         | None =>
             inserted ← supabase (InsertSelectSingle (newUserProfile user));
             throw_if_error inserted;;
             match data inserted with
             | Some newProfile =>
                 setCurrentUser (fun _ => Some (session_of newProfile user))
             | None => mret tt
             end
         end)
        (fun e => console_error "Error fetching/hydrating user profile:"))
      (consent ← trigger (LocalStorageGetItem "cookieConsent");
       if bool_decide (consent = Some "true") then mret tt
       else setShowCookieConsent true)
  end.

(** Lines 202-213: the realtime callback on [messages]. *)
Definition same_id (newMessage msg : ChatMessage.t) : bool :=
  bool_decide (ChatMessage.id msg = ChatMessage.id newMessage).

Definition insertMessage (newMessage : ChatMessage.t) (prev : list ChatMessage.t)
  : list ChatMessage.t :=
  match List.find (same_id newMessage) prev with
  | Some _ => prev
  | None => prev ++ [newMessage]
  end.

Definition replaceMessage (updatedMessage : ChatMessage.t) (prev : list ChatMessage.t)
  : list ChatMessage.t :=
  List.map (fun msg => if same_id updatedMessage msg then updatedMessage else msg) prev.

Definition handleRealtimeUpdate (payload : Payload) : Prog unit :=
  match eventType payload with
  | INSERT => setChatHistory (insertMessage (new payload))
  | UPDATE => setChatHistory (replaceMessage (new payload))
  | DELETE => mret tt
  end.

(** Lines 280-302.  [currentUser] is the value the callback closed over. *)
Definition deductPoints (currentUser : option CurrentUser) (amount : Z) : Prog bool :=
  match currentUser with
  | None => mret true
  | Some cu =>
    if is_admin cu then mret true
    else if points cu <? amount then
      alert "You don't have enough points for this action. Please upgrade your plan.";;
      setIsPricingModalOpen true;;
      mret false
    else
      let newPoints := points cu - amount in
      setCurrentUser (fun _ => Some (on_columns (set_points newPoints) cu));;
      persisted ← supabase (UpdateEq (points_patch newPoints) (id cu));
      if error persisted is Some _ then
        console_error "Error deducting points: ";;
        setCurrentUser (fun prev =>
          match prev with
          | Some prev => Some (on_columns (set_points (points prev + amount)) prev)
          | None => None
          end);;
        mret false
      else mret true
  end.

(** Lines 310-329.  With [.single()] a response without error carries the
    row; [data.tier] on a missing row is a TypeError. *)
Definition handleCheckoutSuccess (currentUser : option CurrentUser)
    (tier_ : SubscriptionTier) (points_ : Z) : Prog unit :=
  match currentUser with
  | None => mret tt
  | Some cu =>
    try_catch
      (let newTotalPoints := points cu + points_ in
       credited ← supabase
         (UpdateEqSelectSingle (tier_points_patch tier_ newTotalPoints) (id cu));
       throw_if_error credited;;
       match data credited with
       | Some confirmed =>
           setCurrentUser (fun prev =>
             match prev with
             | Some prev =>
                 Some (on_columns
                         (fun d => set_points (points confirmed)
                                     (set_tier (tier confirmed) d)) prev)
             | None => None
             end);;
           setIsCheckoutOpen false
       | None => Throw TypeError
       end)
      (fun e => console_error "Error updating subscription:")
  end.

(** Lines 331-343. *)
Definition addToBasket (currentUser : option CurrentUser) (content : string) : Prog unit :=
  match currentUser with
  | None => mret tt
  | Some cu =>
    if includes (basket_items cu) content then mret tt
    else
      let updatedBasket := (basket_items cu ++ [content])%list in
      try_catch
        (written ← supabase (UpdateEq (basket_patch updatedBasket) (id cu));
         throw_if_error written;;
         setCurrentUser (fun prev =>
           (fun prev => on_columns (set_basket_items updatedBasket) prev) <$> prev))
        (fun e => console_error "Error adding to basket:")
  end.

(** Lines 345-356: [filter((_, i) => i !== index)] drops position [index]. *)
Definition removeFromBasket (currentUser : option CurrentUser) (index : nat) : Prog unit :=
  match currentUser with
  | None => mret tt
  | Some cu =>
    let updatedBasket := delete index (basket_items cu) in
    try_catch
      (written ← supabase (UpdateEq (basket_patch updatedBasket) (id cu));
       throw_if_error written;;
       setCurrentUser (fun prev =>
         (fun prev => on_columns (set_basket_items updatedBasket) prev) <$> prev))
      (fun e => console_error "Error removing from basket:")
  end.

(** The updater shared by lines 376 and 397:
    [{ ...prev, ai_profile_info: m, language: m.language || 'English' }]. *)
Definition adopt_ai_profile_info (m : AiProfileInfo) (prev : CurrentUser) : CurrentUser :=
  set_language (or_else (m !! "language") "English")
    (on_columns (set_ai_profile_info (Some m)) prev).

(** The tail shared by lines 373-377 and 394-398.  Reading [.language] of
    a null [ai_profile_info] is a TypeError. *)
Definition confirm_ai_profile_info (answer : Response) : Prog unit :=
  throw_if_error answer;;
  match data answer with
  | Some confirmed =>
      match ai_profile_info confirmed with
      | Some m => setCurrentUser (fun prev => adopt_ai_profile_info m <$> prev)
      | None => Throw TypeError
      end
  | None => mret tt
  end.

(** Lines 358-381. *)
Definition updateAiProfileInfo (currentUser : option CurrentUser)
    (updatedProfile : AiProfileInfo) : Prog unit :=
  match currentUser with
  | None => mret tt
  | Some cu =>
    try_catch
      (let newProfileInfo := spread (default ∅ (ai_profile_info cu)) updatedProfile in
       answer ← supabase (UpdateEqSelectSingle (ai_patch newProfileInfo) (id cu));
       confirm_ai_profile_info answer)
      (fun e => console_error "Error updating AI profile:")
  end.

(** Lines 383-402. *)
Definition updateLanguage (currentUser : option CurrentUser)
    (newLanguage : string) : Prog unit :=
  match currentUser with
  | None => mret tt
  | Some cu =>
    try_catch
      (let updatedProfileInfo :=
         <["language" := newLanguage]> (default ∅ (ai_profile_info cu)) in
       answer ← supabase (UpdateEqSelectSingle (ai_patch updatedProfileInfo) (id cu));
       confirm_ai_profile_info answer)
      (fun e => console_error "Error updating language:")
  end.

(** A call of a handler as rendered: the callback closes over the
    [currentUser] of the state it is called in. *)
Definition call {A : Type} (handler : option CurrentUser -> Prog A) (w : World)
  : Outcome A * World :=
  run (handler (currentUser (react w))) w.

(* ===================================================================== *)
(** ** Sample worlds *)
(* ===================================================================== *)

Definition ada_data : UserData :=
  {| tier := Basic; points := 200; is_admin := false;
     ai_profile_info := Some defaultAiProfileInfo; basket_items := ["a note"] |}.

Definition ada : CurrentUser :=
  {| row := {| id := "u-ada"; columns := ada_data |};
     email := Some "ada@example.org"; language := "English" |}.

Definition root : CurrentUser :=
  {| row := {| id := "u-root";
               columns := {| tier := Admin; points := 10; is_admin := true;
                             ai_profile_info := Some defaultAiProfileInfo;
                             basket_items := [] |} |};
     email := Some "super@user.com"; language := "English" |}.

Definition signed_in (u : CurrentUser) (tbl : gmap string UserData)
    (net : list NetStep) : World :=
  {| react := {| currentUser := Some u; chatHistory := [welcomeMessage];
                 isPricingModalOpen := false; isCheckoutOpen := false;
                 showCookieConsent := false |};
     remote := {| authUser := Some {| uid := id u; mail := email u |};
                  profiles := tbl; network := net; wire := [] |};
     browser := {| console := []; alerts := []; cookieConsent := Some "true" |} |}.

Definition offline : NetStep := {| concurrent := fun t => t; fault := Some NetworkError |}.

Definition ada_online : World := signed_in ada {[ "u-ada" := ada_data ]} [].
Definition ada_offline : World := signed_in ada {[ "u-ada" := ada_data ]} [offline].
Definition root_online : World := signed_in root ∅ [].

(* ===================================================================== *)
(** ** Observations *)
(* ===================================================================== *)

Definition session (w : World) : option CurrentUser := currentUser (react w).

Definition local_points (w : World) : option Z :=
  (fun u : CurrentUser => points u) <$> session w.

Definition remote_points (w : World) (key : string) : option Z :=
  (fun d : UserData => points d) <$> profiles (remote w) !! key.


(** The personalization map of the session. *)
Definition session_ai (w : World) : option AiProfileInfo :=
  session w ≫= (fun u : CurrentUser => ai_profile_info u).

(** How many messages of a sequence carry the id [x]. *)
Definition count_id (x : option string) (l : list ChatMessage.t) : nat :=
  List.length (List.filter (fun msg => bool_decide (ChatMessage.id msg = x)) l).

(** One delivery of a realtime payload. *)
Definition deliver (payload : Payload) (w : World) : World :=
  (run (handleRealtimeUpdate payload) w).2.

(** The four merge-patch handlers behind one type, to state what they have
    in common. *)
Inductive MergePatch :=
| PatchPersonalization (updatedProfile : AiProfileInfo)
| PatchLanguage (newLanguage : string)
| BasketAdd (content : string)
| BasketRemove (index : nat).

Definition mergePatch (op : MergePatch) (currentUser : option CurrentUser) : Prog unit :=
  match op with
  | PatchPersonalization updatedProfile => updateAiProfileInfo currentUser updatedProfile
  | PatchLanguage newLanguage => updateLanguage currentUser newLanguage
  | BasketAdd content => addToBasket currentUser content
  | BasketRemove index => removeFromBasket currentUser index
  end.

(** The keys a personalization map must hold; their defaults are those of
    [defaultAiProfileInfo]. *)
Definition required_keys : list string := ["Name"; "Location"; "Interests"; "language"].

(** What hydration leaves as the personalization of a stored map. *)
Definition hydrated_ai (stored : AiProfileInfo) : AiProfileInfo :=
  if needsUpdate stored then updatedAiInfo stored else stored.

(** Every key of [stored] is found in [m] with its stored value. *)
Definition keeps_stored (stored m : AiProfileInfo) : Prop :=
  forall k v, stored !! k = Some v -> m !! k = Some v.

(** *** More sample worlds *)

(** A stored row whose [language] is present and empty. *)
Definition bola_ai : AiProfileInfo :=
  {[ "Name" := "Bola"; "Location" := "Lagos"; "Interests" := "chess";
     "language" := "" ]}.

Definition bola_data : UserData :=
  {| tier := Basic; points := 120; is_admin := false;
     ai_profile_info := Some bola_ai; basket_items := [] |}.

Definition bola_auth : AuthUser := {| uid := "u-bola"; mail := Some "bola@example.org" |}.

(** The state right after the sign-in event of an identity, before
    hydration. *)
Definition provisional (who : AuthUser) (tbl : gmap string UserData)
    (net : list NetStep) : World :=
  (run (onAuthStateChange (Some who))
     {| react := {| currentUser := None; chatHistory := [initialMessage];
                    isPricingModalOpen := false; isCheckoutOpen := false;
                    showCookieConsent := false |};
        remote := {| authUser := Some who; profiles := tbl;
                     network := net; wire := [] |};
        browser := {| console := []; alerts := []; cookieConsent := None |} |}).2.

Definition bola_signing_in : World :=
  provisional bola_auth {[ "u-bola" := bola_data ]} [].

(** Two sessions of one new identity hydrate at once: the other one inserts
    the row after this one looked for it and before this one inserts. *)
Definition chidi_auth : AuthUser := {| uid := "u-chidi"; mail := Some "chidi@example.org" |}.

Definition chidi_data : UserData :=
  {| tier := Free; points := 5000; is_admin := false;
     ai_profile_info := Some defaultAiProfileInfo; basket_items := [] |}.

Definition other_session_inserts : NetStep :=
  {| concurrent := fun t => <["u-chidi" := chidi_data]> t; fault := None |}.

Definition chidi_racing : World :=
  provisional chidi_auth ∅ [quiet; other_session_inserts].

Definition chidi_alone : World := provisional chidi_auth ∅ [].

Definition admin_auth : AuthUser := {| uid := "u-sam"; mail := Some "SamFolarvic@Gmail.com" |}.

Definition hello : ChatMessage.t :=
  ChatMessage.mk (Some "m-1") ChatMessage.user "hi" (Some "2024-01-01T10:00:00Z")
    (Some "u-ada").

(* ===================================================================== *)
(** ** The transcript handlers and the [messages] table *)
(* ===================================================================== *)

(** More observations of a session. *)
Definition session_basket (w : World) : option (list string) :=
  (fun u : CurrentUser => basket_items u) <$> session w.

Definition session_tier (w : World) : option SubscriptionTier :=
  (fun u : CurrentUser => tier u) <$> session w.

(** The requests among the exchanges of a call. *)
Definition requests (w w' : World) : list Request := (exchanged w w').*1.

(** Line 449: the [hasHistory] prop handed to the header. *)
Definition hasHistory (chatHistory : list ChatMessage.t) : bool :=
  (1 <? List.length chatHistory)%nat
  || ((List.length chatHistory =? 1)%nat
      && negb (from_option
                 (fun first => String.eqb (ChatMessage.content first)
                                 "Welcome! I'm Padi. Let's have a chat.")
                 false (head chatHistory))).

(** The handlers that talk to the [messages] table.  They share no state
    with the profile handlers but the session they close over; the table
    answers from a script, so that every statement holds for whatever the
    store answers. *)
Module Transcript.

(** [{ data, error }] of a query on [messages]. *)
Record Response := {
  data : option (list ChatMessage.t);
  error : option PgError
}.

(** The query chains the file builds on [supabase.from('messages')]. *)
Inductive Request :=
| SelectEqOrder (owner : string)
    (* .select('*').eq('user_id', owner).order('created_at', { ascending: true }) *)
| InsertSelect (rows : list ChatMessage.t)
    (* .insert(rows).select() *)
| UpdateContentEq (content key : string)
    (* .update({ content }).eq('id', key) *)
| DeleteEq (owner : string).
    (* .delete().eq('user_id', owner) *)

Inductive Event : Type -> Type :=
| Messages (q : Request) : Event Response
| SetChatHistory (f : list ChatMessage.t -> list ChatMessage.t) : Event unit
| ConsoleError (msg : string) : Event unit.

Inductive Prog (A : Type) : Type :=
| Ret (a : A)
| Throw (e : Exn)
| Vis {R : Type} (ev : Event R) (k : R -> Prog A).

Arguments Ret {A} a.
Arguments Throw {A} e.
Arguments Vis {A R} ev k.

Fixpoint bind {A B : Type} (p : Prog A) (f : A -> Prog B) : Prog B :=
  match p with
  | Ret a => f a
  | Throw e => Throw e
  | Vis ev k => Vis ev (fun r => bind (k r) f)
  end.

Fixpoint try_catch {A : Type} (p : Prog A) (h : Exn -> Prog A) : Prog A :=
  match p with
  | Ret a => Ret a
  | Throw e => h e
  | Vis ev k => Vis ev (fun r => try_catch (k r) h)
  end.

#[global] Instance transcript_ret : MRet Prog := @Ret.
#[global] Instance transcript_bind : MBind Prog := fun A B f p => bind p f.

Definition messages (q : Request) : Prog Response := Vis (Messages q) Ret.
Definition setChatHistory (f : list ChatMessage.t -> list ChatMessage.t) : Prog unit :=
  Vis (SetChatHistory f) Ret.
Definition console_error (msg : string) : Prog unit := Vis (ConsoleError msg) Ret.

Definition throw_if_error (r : Response) : Prog unit :=
  match error r with
  | Some e => Throw (ExnPg e)
  | None => Ret tt
  end.

(** The local transcript, the answers the store will give to the next
    requests, the requests sent so far, and the console. *)
Record World := {
  chatHistory : list ChatMessage.t;
  answers : list Response;
  sent : list Request;
  console : list string
}.

(** A store that is out of scripted answers answers with a network error. *)
Definition unreachable : Response := {| data := None; error := Some NetworkError |}.

Definition handle {R : Type} (ev : Event R) (w : World) : R * World :=
  match ev in Event R return R * World with
  | Messages q =>
      (hd unreachable (answers w),
       {| chatHistory := chatHistory w; answers := tl (answers w);
          sent := sent w ++ [q]; console := console w |})
  | SetChatHistory f =>
      (tt, {| chatHistory := f (chatHistory w); answers := answers w;
              sent := sent w; console := console w |})
  | ConsoleError msg =>
      (tt, {| chatHistory := chatHistory w; answers := answers w;
              sent := sent w; console := console w ++ [msg] |})
  end.

Fixpoint run {A : Type} (p : Prog A) (w : World) : Outcome A * World :=
  match p with
  | Ret a => (Returned a, w)
  | Throw e => (Uncaught e, w)
  | Vis ev k => let step := handle ev w in run (k step.1) step.2
  end.

(** Lines 182-198. *)
Definition fetchHistory (currentUserId : string) : Prog unit :=
  got ← messages (SelectEqOrder currentUserId);
  if error got is Some _ then console_error "Error fetching chat history:"
  else
    match data got with
    | Some rows =>
        if (List.length rows =? 0)%nat
        then setChatHistory (fun _ => [welcomeMessage])
        else setChatHistory (fun _ => rows)
    | None => mret tt
    end.

(** Lines 176-200: the effect on [currentUserId], up to the subscription. *)
Definition chatHistoryEffect (currentUserId : option string) : Prog unit :=
  if truthy currentUserId
  then fetchHistory (default "" currentUserId)
  else setChatHistory (fun _ => [initialMessage]).

(** Lines 243-252. *)
Definition handleClearHistory (currentUser : option CurrentUser) : Prog unit :=
  match currentUser with
  | None => mret tt
  | Some cu =>
    try_catch
      (cleared ← messages (DeleteEq (id cu));
       throw_if_error cleared;;
       setChatHistory (fun _ => [welcomeMessage]))
      (fun e => console_error "Error clearing history: ")
  end.

(** [{ ...msg, user_id: owner }]. *)
Definition owned_by (owner : string) (msg : ChatMessage.t) : ChatMessage.t :=
  ChatMessage.mk (ChatMessage.id msg) (ChatMessage.role msg) (ChatMessage.content msg)
    (ChatMessage.created_at msg) (Some owner).

(** Lines 254-267. *)
Definition addMessages (currentUser : option CurrentUser) (msgs : list ChatMessage.t)
  : Prog (list ChatMessage.t) :=
  match currentUser with
  | None => mret []
  | Some cu =>
    let messagesToInsert := List.map (owned_by (id cu)) msgs in
    try_catch
      (stored ← messages (InsertSelect messagesToInsert);
       throw_if_error stored;;
       mret (default [] (data stored)))
      (fun e => console_error "Error adding messages:";; mret [])
  end.

(** Lines 269-277.  [!id] holds of the empty string. *)
Definition updateStreamedMessage (currentUser : option CurrentUser)
    (key content : string) : Prog unit :=
  match currentUser with
  | None => mret tt
  | Some cu =>
    if String.eqb key "" then mret tt
    else
      try_catch
        (updated ← messages (UpdateContentEq content key);
         throw_if_error updated)
        (fun e => console_error "Error updating streamed message:")
  end.

(** The realtime callback of lines 202-213 on this world. *)
Definition onRealtime (payload : Payload) : Prog unit :=
  match eventType payload with
  | INSERT => setChatHistory (insertMessage (new payload))
  | UPDATE => setChatHistory (replaceMessage (new payload))
  | DELETE => mret tt
  end.

(** Whatever can happen to the transcript: the effect on the identity, a
    handler call, or a realtime event. *)
Inductive Action :=
| Effect (currentUserId : option string)
| Clear (currentUser : option CurrentUser)
| Add (currentUser : option CurrentUser) (msgs : list ChatMessage.t)
| Stream (currentUser : option CurrentUser) (key content : string)
| Realtime (payload : Payload).

Definition perform (a : Action) (w : World) : World :=
  match a with
  | Effect currentUserId => (run (chatHistoryEffect currentUserId) w).2
  | Clear currentUser => (run (handleClearHistory currentUser) w).2
  | Add currentUser msgs => (run (addMessages currentUser msgs) w).2
  | Stream currentUser key content =>
      (run (updateStreamedMessage currentUser key content) w).2
  | Realtime payload => (run (onRealtime payload) w).2
  end.

Definition answered (r : Response) (local : list ChatMessage.t) : World :=
  {| chatHistory := local; answers := [r]; sent := []; console := [] |}.

Definition rows_ok (rows : list ChatMessage.t) : Response :=
  {| data := Some rows; error := None |}.

Definition done_ok : Response := {| data := None; error := None |}.

End Transcript.

(** *** Sample values for the later sections *)

Definition hello_reply : ChatMessage.t :=
  ChatMessage.mk (Some "m-2") ChatMessage.model "hello" (Some "2024-01-01T10:00:01Z")
    (Some "u-ada").

Definition hello_streamed : ChatMessage.t :=
  ChatMessage.mk (Some "m-2") ChatMessage.model "hello there" (Some "2024-01-01T10:00:01Z")
    (Some "u-ada").

(* ===================================================================== *)
(** ** Running programs *)
(* ===================================================================== *)

Lemma respond_wire (q : Request) (b : Backend) :
  wire (respond q b).2 = (wire b ++ [(q, (respond q b).1)])%list.
Proof. reflexivity. Qed.

Lemma respond_faulty (q : Request) (b : Backend) (e : PgError) :
  fault (next_step b) = Some e ->
  (respond q b).1 = failed e /\ profiles (respond q b).2 = table_seen b.
Proof. intros H. unfold respond. rewrite H. split; reflexivity. Qed.

Lemma respond_served (q : Request) (b : Backend) :
  fault (next_step b) = None ->
  (respond q b).1 = (execute q (table_seen b)).1 /\
  profiles (respond q b).2 = (execute q (table_seen b)).2.
Proof. intros H. unfold respond. rewrite H. split; reflexivity. Qed.

(** Whatever a request does, a failed one leaves the table as it found it. *)
Lemma respond_error_keeps_table (q : Request) (b : Backend) :
  is_Some (error (respond q b).1) ->
  profiles (respond q b).2 = table_seen b.
Proof.
  destruct (fault (next_step b)) as [e|] eqn:F.
  - intros _. apply (respond_faulty q b e F).
  - destruct (respond_served q b F) as [-> ->].
    destruct q as [key | p key | p key | r]; simpl.
    + destruct (table_seen b !! key); simpl; [intros [? [=]] | reflexivity].
    + intros [? [=]].
    + destruct (table_seen b !! key); simpl; [intros [? [=]] | reflexivity].
    + destruct (table_seen b !! id r); simpl; [reflexivity | intros [? [=]]].
Qed.

#[local] Opaque respond.

Lemma last_exchange (l : list (Request * Response)) (x : Request * Response) :
  last (drop (List.length l) (l ++ [x])) = Some x.
Proof. rewrite drop_app_length. reflexivity. Qed.

Lemma exchanged_none (w : World) : exchanged w w = [].
Proof. unfold exchanged. apply drop_all. Qed.

Lemma set_points_back (u : CurrentUser) (p : Z) :
  on_columns (set_points (points (on_columns (set_points p) u) + (points u - p)))
    (on_columns (set_points p) u) = u.
Proof.
  destruct u as [[k d] e l]. destruct d. unfold on_columns, set_points. simpl.
  do 3 f_equal. lia.
Qed.

(* ===================================================================== *)
(** ** The ledger: [deductPoints] *)
(* ===================================================================== *)

(** C7.  An admin session is never charged: the call returns [true] and the
    world it ran in is left as it was, so neither the local points nor the
    remote table changes and no request is issued. *)
Theorem deductPoints_admin_free (w : World) (u : CurrentUser) (amount : Z) :
  session w = Some u -> is_admin u = true ->
  call (fun cu => deductPoints cu amount) w = (Returned true, w).
Proof.
  unfold call, session. intros -> Hadm. simpl. rewrite Hadm. reflexivity.
Qed.

Lemma deductPoints_admin_free_witness :
  call (fun cu => deductPoints cu 1000) root_online = (Returned true, root_online).
Proof.
  apply (deductPoints_admin_free root_online root 1000); reflexivity.
Defined.

(** C6.  A debit larger than the balance of a non-admin session returns
    [false], keeps the session (and its points) as it was, and leaves the
    remote side untouched: no request is issued.  The caller is shown the
    alert and the pricing modal. *)
Theorem deductPoints_insufficient (w : World) (u : CurrentUser) (amount : Z) :
  session w = Some u -> is_admin u = false -> amount > points u ->
  let w' := (call (fun cu => deductPoints cu amount) w).2 in
  (call (fun cu => deductPoints cu amount) w).1 = Returned false /\
  session w' = Some u /\
  local_points w' = local_points w /\
  remote w' = remote w /\
  exchanged w w' = [] /\
  isPricingModalOpen (react w') = true.
Proof.
  unfold call, local_points, session. intros Hs Hadm Hgt. rewrite Hs. simpl.
  rewrite Hadm. destruct (Z.ltb_spec (points u) amount) as [_ | Hge]; [| lia].
  simpl. rewrite Hs. repeat split. apply drop_all.
Qed.

Lemma deductPoints_insufficient_witness :
  let w' := (call (fun cu => deductPoints cu 250) ada_online).2 in
  (call (fun cu => deductPoints cu 250) ada_online).1 = Returned false /\
  session w' = Some ada /\
  local_points w' = local_points ada_online /\
  remote w' = remote ada_online /\
  exchanged ada_online w' = [] /\
  isPricingModalOpen (react w') = true.
Proof.
  apply (deductPoints_insufficient ada_online ada 250); [reflexivity | reflexivity | ].
  vm_compute. reflexivity.
Defined.

(** The run of a debit that passes both guards, in terms of the answer to
    its one request. *)
Lemma deductPoints_charged (w : World) (u : CurrentUser) (amount : Z) :
  session w = Some u -> is_admin u = false -> amount <= points u ->
  let q := UpdateEq (points_patch (points u - amount)) (id u) in
  let served := respond q (remote w) in
  let w' := (call (fun cu => deductPoints cu amount) w).2 in
  exchanged w w' = [(q, served.1)] /\
  profiles (remote w') = profiles served.2 /\
  match error served.1 with
  | Some _ =>
      (call (fun cu => deductPoints cu amount) w).1 = Returned false /\
      session w' = Some u
  | None =>
      (call (fun cu => deductPoints cu amount) w).1 = Returned true /\
      session w' = Some (on_columns (set_points (points u - amount)) u)
  end.
Proof.
  unfold call, session, exchanged. intros Hs Hadm Hle. rewrite Hs. simpl.
  rewrite Hadm. destruct (Z.ltb_spec (points u) amount) as [Hlt | _]; [lia |].
  simpl.
  set (served := respond (UpdateEq (points_patch (points u - amount)) (id u)) (remote w)).
  destruct (error served.1) as [e|] eqn:E; simpl; subst served.
  - rewrite respond_wire, drop_app_length. repeat split.
    f_equal. replace (points u - amount + amount) with
      (points (on_columns (set_points (points u - amount)) u)
       + (points u - (points u - amount))) by (simpl; lia).
    apply set_points_back.
  - rewrite respond_wire, drop_app_length. repeat split.
Qed.

(** C1.  A debit within the balance of a non-admin session whose remote
    persist succeeds returns [true], lowers the local points by exactly
    [amount], and writes that same value: the one request issued is the
    update of [points] to the new balance, and the stored row, when the
    identity has one, then holds the local value. *)
Theorem deductPoints_debits (w : World) (u : CurrentUser) (amount : Z) :
  session w = Some u -> is_admin u = false -> amount <= points u ->
  let w' := (call (fun cu => deductPoints cu amount) w).2 in
  persist_succeeded w w' ->
  (call (fun cu => deductPoints cu amount) w).1 = Returned true /\
  local_points w' = Some (points u - amount) /\
  session w' = Some (on_columns (set_points (points u - amount)) u) /\
  exchanged w w' =
    [(UpdateEq (points_patch (points u - amount)) (id u), done_no_data)] /\
  (is_Some (table_seen (remote w) !! id u) ->
   remote_points w' (id u) = local_points w').
Proof.
  intros Hs Hadm Hle w' (q & r & Hlast & Hok).
  destruct (deductPoints_charged w u amount Hs Hadm Hle) as (Hx & Htbl & Hres).
  fold w' in Hx, Htbl, Hres. rewrite Hx in Hlast. simpl in Hlast.
  injection Hlast as <- Hr. rewrite Hr, Hok in Hres. destruct Hres as [Hret Hsess].
  assert (Hfault : fault (next_step (remote w)) = None).
  { destruct (fault (next_step (remote w))) as [e|] eqn:F; [| reflexivity].
    destruct (respond_faulty (UpdateEq (points_patch (points u - amount)) (id u))
                (remote w) e F) as [Hf _].
    rewrite Hf in Hr. subst r. discriminate Hok. }
  destruct (respond_served (UpdateEq (points_patch (points u - amount)) (id u))
              (remote w) Hfault) as [Hans Hprof].
  repeat split.
  - exact Hret.
  - unfold local_points. rewrite Hsess. reflexivity.
  - exact Hsess.
  - rewrite Hx, Hans. reflexivity.
  - intros [d Hd]. unfold remote_points, local_points.
    rewrite Htbl, Hprof, Hsess. simpl. rewrite lookup_alter_eq, Hd. reflexivity.
Qed.

Lemma deductPoints_debits_witness :
  let w' := (call (fun cu => deductPoints cu 50) ada_online).2 in
  (call (fun cu => deductPoints cu 50) ada_online).1 = Returned true /\
  local_points w' = Some (points ada - 50) /\
  session w' = Some (on_columns (set_points (points ada - 50)) ada) /\
  exchanged ada_online w' =
    [(UpdateEq (points_patch (points ada - 50)) (id ada), done_no_data)] /\
  (is_Some (table_seen (remote ada_online) !! id ada) ->
   remote_points w' (id ada) = local_points w').
Proof.
  apply (deductPoints_debits ada_online ada 50).
  - reflexivity.
  - reflexivity.
  - vm_compute. discriminate.
  - eexists _, _. split; [vm_compute; reflexivity | reflexivity].
Defined.

(** C2.  When the remote persist of a debit fails after the optimistic
    decrement, the call returns [false] and the session is put back as it was
    before the debit, its points included; the table is not written. *)
Theorem deductPoints_rolls_back (w : World) (u : CurrentUser) (amount : Z) :
  session w = Some u -> is_admin u = false -> amount <= points u ->
  let w' := (call (fun cu => deductPoints cu amount) w).2 in
  persist_failed w w' ->
  (call (fun cu => deductPoints cu amount) w).1 = Returned false /\
  local_points w' = Some (points u) /\
  session w' = Some u /\
  profiles (remote w') = table_seen (remote w).
Proof.
  intros Hs Hadm Hle w' (q & r & Hlast & Herr).
  destruct (deductPoints_charged w u amount Hs Hadm Hle) as (Hx & Htbl & Hres).
  fold w' in Hx, Htbl, Hres. rewrite Hx in Hlast. simpl in Hlast.
  injection Hlast as <- Hr. rewrite Hr in Hres.
  destruct Herr as [e He]. rewrite He in Hres. destruct Hres as [Hret Hsess].
  repeat split; try assumption.
  - unfold local_points. rewrite Hsess. reflexivity.
  - rewrite Htbl. apply respond_error_keeps_table. rewrite Hr, He. eauto.
Qed.

Lemma deductPoints_rolls_back_witness :
  let w' := (call (fun cu => deductPoints cu 50) ada_offline).2 in
  (call (fun cu => deductPoints cu 50) ada_offline).1 = Returned false /\
  local_points w' = Some (points ada) /\
  session w' = Some ada /\
  profiles (remote w') = table_seen (remote ada_offline).
Proof.
  apply (deductPoints_rolls_back ada_offline ada 50).
  - reflexivity.
  - reflexivity.
  - vm_compute. discriminate.
  - eexists _, _. split; [vm_compute; reflexivity | vm_compute; eauto].
Defined.

(* ===================================================================== *)
(** ** Confirmed writes: checkout credit and merge-patch *)
(* ===================================================================== *)

Lemma no_exchange_no_failure (w : World) : ~ persist_failed w w.
Proof.
  intros (q & r & Hlast & _). rewrite exchanged_none in Hlast. discriminate.
Qed.

(** A call whose only exchange was answered without an error did not fail. *)
Lemma answered_not_failed (w w' : World) (q : Request) (r : Response) :
  wire (remote w') = (wire (remote w) ++ [(q, r)])%list ->
  error r = None -> ~ persist_failed w w'.
Proof.
  intros Hw Hr (q' & r' & Hlast & [e He]).
  unfold exchanged in Hlast. rewrite Hw, last_exchange in Hlast.
  injection Hlast as <- <-. congruence.
Qed.

Ltac settle_answer served :=
  let E := fresh "E" in
  unfold confirm_ai_profile_info, throw_if_error; simpl;
  destruct (error served.1) eqn:E; simpl;
  [ reflexivity
  | intros Hfail; exfalso; revert Hfail;
    eapply (answered_not_failed _ _ _ served.1); [| exact E];
    repeat (simpl; match goal with
            | |- context [match ?x with _ => _ end] => destruct x
            end);
    simpl; subst served; apply respond_wire ].

Lemma handleCheckoutSuccess_failure (w : World) (t : SubscriptionTier) (granted : Z) :
  let w' := (call (fun cu => handleCheckoutSuccess cu t granted) w).2 in
  persist_failed w w' -> react w' = react w.
Proof.
  unfold call. destruct (currentUser (react w)) as [cu|]; simpl.
  - set (served := respond _ (remote w)). settle_answer served.
  - intros H. destruct (no_exchange_no_failure w H).
Qed.

Lemma updateAiProfileInfo_failure (w : World) (updatedProfile : AiProfileInfo) :
  let w' := (call (fun cu => updateAiProfileInfo cu updatedProfile) w).2 in
  persist_failed w w' -> react w' = react w.
Proof.
  unfold call. destruct (currentUser (react w)) as [cu|]; simpl.
  - set (served := respond _ (remote w)). settle_answer served.
  - intros H. destruct (no_exchange_no_failure w H).
Qed.

Lemma updateLanguage_failure (w : World) (newLanguage : string) :
  let w' := (call (fun cu => updateLanguage cu newLanguage) w).2 in
  persist_failed w w' -> react w' = react w.
Proof.
  unfold call. destruct (currentUser (react w)) as [cu|]; simpl.
  - set (served := respond _ (remote w)). settle_answer served.
  - intros H. destruct (no_exchange_no_failure w H).
Qed.

Lemma addToBasket_failure (w : World) (content : string) :
  let w' := (call (fun cu => addToBasket cu content) w).2 in
  persist_failed w w' -> react w' = react w.
Proof.
  unfold call. destruct (currentUser (react w)) as [cu|]; simpl.
  - destruct (includes (basket_items cu) content); simpl.
    + intros H. destruct (no_exchange_no_failure w H).
    + set (served := respond _ (remote w)). settle_answer served.
  - intros H. destruct (no_exchange_no_failure w H).
Qed.

Lemma removeFromBasket_failure (w : World) (index : nat) :
  let w' := (call (fun cu => removeFromBasket cu index) w).2 in
  persist_failed w w' -> react w' = react w.
Proof.
  unfold call. destruct (currentUser (react w)) as [cu|]; simpl.
  - set (served := respond _ (remote w)). settle_answer served.
  - intros H. destruct (no_exchange_no_failure w H).
Qed.

(** C10.  When the remote read-modify-write of the checkout credit fails,
    the React state is exactly what it was: the session keeps its tier and
    its points, and the checkout dialog stays as it was. *)
Theorem handleCheckoutSuccess_failure_keeps_session
    (w : World) (t : SubscriptionTier) (granted : Z) :
  let w' := (call (fun cu => handleCheckoutSuccess cu t granted) w).2 in
  persist_failed w w' ->
  react w' = react w /\
  session w' = session w /\
  local_points w' = local_points w /\
  (fun u : CurrentUser => tier u) <$> session w'
    = (fun u : CurrentUser => tier u) <$> session w.
Proof.
  intros w' Hfail. pose proof (handleCheckoutSuccess_failure w t granted Hfail) as Hreact.
  fold w' in Hreact. unfold local_points, session. rewrite Hreact. repeat split.
Qed.

Lemma handleCheckoutSuccess_failure_keeps_session_witness :
  let w' := (call (fun cu => handleCheckoutSuccess cu Premium 1000) ada_offline).2 in
  react w' = react ada_offline /\
  session w' = session ada_offline /\
  local_points w' = local_points ada_offline /\
  (fun u : CurrentUser => tier u) <$> session w'
    = (fun u : CurrentUser => tier u) <$> session ada_offline.
Proof.
  apply (handleCheckoutSuccess_failure_keeps_session ada_offline Premium 1000).
  eexists _, _. split; [vm_compute; reflexivity | vm_compute; eauto].
Defined.

(** The scenario of the credit going through: 200 points and a Premium
    checkout granting 1000 give 1200 points on the Premium tier. *)
Example handleCheckoutSuccess_scenario :
  let w' := (call (fun cu => handleCheckoutSuccess cu Premium 1000) ada_online).2 in
  local_points w' = Some 1200 /\
  (fun u : CurrentUser => tier u) <$> session w' = Some Premium /\
  remote_points w' "u-ada" = Some 1200.
Proof. vm_compute. repeat split. Qed.

(** C9.  For each merge-patch handler (personalization, language, adding to
    and removing from the basket): when its remote whole-field update fails,
    the React state, and with it the field of the session, is exactly what
    it was before the call. *)
Theorem mergePatch_failure_keeps_local (w : World) (op : MergePatch) :
  let w' := (call (mergePatch op) w).2 in
  persist_failed w w' ->
  react w' = react w /\
  session_ai w' = session_ai w /\
  language <$> session w' = language <$> session w /\
  (fun u : CurrentUser => basket_items u) <$> session w'
    = (fun u : CurrentUser => basket_items u) <$> session w.
Proof.
  intros w' Hfail.
  assert (Hreact : react w' = react w).
  { destruct op as [updatedProfile | newLanguage | content | index].
    - exact (updateAiProfileInfo_failure w updatedProfile Hfail).
    - exact (updateLanguage_failure w newLanguage Hfail).
    - exact (addToBasket_failure w content Hfail).
    - exact (removeFromBasket_failure w index Hfail). }
  unfold session_ai, session. rewrite Hreact. repeat split.
Qed.

Lemma mergePatch_failure_keeps_local_witness :
  let w' := (call (mergePatch (PatchLanguage "French")) ada_offline).2 in
  react w' = react ada_offline /\
  session_ai w' = session_ai ada_offline /\
  language <$> session w' = language <$> session ada_offline /\
  (fun u : CurrentUser => basket_items u) <$> session w'
    = (fun u : CurrentUser => basket_items u) <$> session ada_offline.
Proof.
  apply (mergePatch_failure_keeps_local ada_offline (PatchLanguage "French")).
  eexists _, _. split; [vm_compute; reflexivity | vm_compute; eauto].
Defined.

(** The round trip of a language patch that goes through. *)
Example updateLanguage_scenario :
  let w' := (call (mergePatch (PatchLanguage "French")) ada_online).2 in
  language <$> session w' = Some "French" /\
  (profiles (remote w') !! "u-ada" ≫= ai_profile_info) ≫= (.!! "language")
    = Some "French".
Proof. vm_compute. repeat split. Qed.

(* ===================================================================== *)
(** ** The transcript: realtime inserts *)
(* ===================================================================== *)

Section Insert.
Variable newMessage : ChatMessage.t.

Lemma find_same_id_none (prev : list ChatMessage.t) :
  List.find (same_id newMessage) prev = None <-> count_id (ChatMessage.id newMessage) prev = 0%nat.
Proof.
  unfold count_id.
  change (fun msg => bool_decide (ChatMessage.id msg = ChatMessage.id newMessage))
    with (same_id newMessage).
  induction prev as [| msg prev IH]; simpl.
  - split; reflexivity.
  - destruct (same_id newMessage msg); simpl.
    + split; discriminate.
    + exact IH.
Qed.

Lemma count_id_snoc (prev : list ChatMessage.t) :
  count_id (ChatMessage.id newMessage) (prev ++ [newMessage])
  = S (count_id (ChatMessage.id newMessage) prev).
Proof.
  unfold count_id. rewrite List.filter_app, List.length_app. simpl.
  rewrite bool_decide_eq_true_2 by reflexivity. simpl. lia.
Qed.

Lemma insertMessage_present (prev : list ChatMessage.t) :
  (0 < count_id (ChatMessage.id newMessage) prev)%nat ->
  insertMessage newMessage prev = prev.
Proof.
  intros Hpos. unfold insertMessage.
  destruct (List.find (same_id newMessage) prev) eqn:F; [reflexivity |].
  apply find_same_id_none in F. lia.
Qed.

Lemma insertMessage_absent (prev : list ChatMessage.t) :
  count_id (ChatMessage.id newMessage) prev = 0%nat ->
  insertMessage newMessage prev = (prev ++ [newMessage])%list.
Proof.
  intros Hz. unfold insertMessage.
  apply find_same_id_none in Hz. rewrite Hz. reflexivity.
Qed.

Lemma count_id_insertMessage (prev : list ChatMessage.t) :
  count_id (ChatMessage.id newMessage) (insertMessage newMessage prev)
  = Nat.max 1 (count_id (ChatMessage.id newMessage) prev).
Proof.
  destruct (count_id (ChatMessage.id newMessage) prev) as [| n] eqn:C.
  - rewrite insertMessage_absent, count_id_snoc, C by exact C. reflexivity.
  - rewrite insertMessage_present by lia. rewrite C. lia.
Qed.

Lemma insertMessage_idempotent (prev : list ChatMessage.t) :
  insertMessage newMessage (insertMessage newMessage prev)
  = insertMessage newMessage prev.
Proof.
  apply insertMessage_present. rewrite count_id_insertMessage. lia.
Qed.

Lemma count_id_positive (prev : list ChatMessage.t) :
  (0 < count_id (ChatMessage.id newMessage) prev)%nat <->
  exists msg, msg ∈ prev /\ ChatMessage.id msg = ChatMessage.id newMessage.
Proof.
  unfold count_id. induction prev as [| msg prev IH]; simpl.
  - split; [lia | intros (m & Hin & _); inversion Hin].
  - destruct (bool_decide_reflect (ChatMessage.id msg = ChatMessage.id newMessage))
      as [Heq | Hne]; simpl.
    + split; [intros _; exists msg; split; [left | exact Heq] | lia].
    + rewrite IH. split.
      * intros (m & Hin & Hm). exists m. split; [right; exact Hin | exact Hm].
      * intros (m & Hin & Hm). inversion Hin; subst; [contradiction |].
        exists m. split; assumption.
Qed.
End Insert.

Lemma deliver_insert (w : World) (payload : Payload) :
  eventType payload = INSERT ->
  chatHistory (react (deliver payload w))
  = insertMessage (new payload) (chatHistory (react w)).
Proof. unfold deliver, handleRealtimeUpdate. intros ->. reflexivity. Qed.

(** C4.  Delivering an Insert is idempotent on a sequence that holds its id
    at most once: an Insert whose id is present is discarded, otherwise the
    row is appended at the end, and after one delivery as after two the
    sequence holds exactly one element with that id. *)
Theorem insert_delivered_twice (w : World) (payload : Payload) :
  eventType payload = INSERT ->
  (count_id (ChatMessage.id (new payload)) (chatHistory (react w)) <= 1)%nat ->
  let x := ChatMessage.id (new payload) in
  let prev := chatHistory (react w) in
  let once := chatHistory (react (deliver payload w)) in
  let twice := chatHistory (react (deliver payload (deliver payload w))) in
  ((exists msg, msg ∈ prev /\ ChatMessage.id msg = x) -> once = prev) /\
  ((forall msg, msg ∈ prev -> ChatMessage.id msg <> x) ->
   once = (prev ++ [new payload])%list) /\
  twice = once /\
  count_id x once = 1%nat /\
  count_id x twice = 1%nat.
Proof.
  intros Hins Hle x prev once twice.
  assert (Honce : once = insertMessage (new payload) prev)
    by apply (deliver_insert w payload Hins).
  assert (Htwice : twice = insertMessage (new payload) once)
    by apply (deliver_insert (deliver payload w) payload Hins).
  assert (Hsame : twice = once).
  { rewrite Htwice, Honce. apply insertMessage_idempotent. }
  assert (Hone : count_id x once = 1%nat).
  { rewrite Honce. unfold x. rewrite count_id_insertMessage. fold prev in Hle. lia. }
  split; [| split; [| split; [| split]]].
  - intros Hex. rewrite Honce. apply insertMessage_present.
    apply count_id_positive. exact Hex.
  - intros Hall. rewrite Honce. apply insertMessage_absent.
    destruct (count_id (ChatMessage.id (new payload)) prev) as [| n] eqn:C;
      [reflexivity |].
    assert (Hpos : (0 < count_id (ChatMessage.id (new payload)) prev)%nat) by lia.
    apply count_id_positive in Hpos. destruct Hpos as (msg & Hin & Hid).
    destruct (Hall msg Hin Hid).
  - exact Hsame.
  - exact Hone.
  - rewrite Hsame. exact Hone.
Qed.

Lemma insert_delivered_twice_witness :
  let payload := {| eventType := INSERT; new := hello |} in
  let x := ChatMessage.id (new payload) in
  let prev := chatHistory (react ada_online) in
  let once := chatHistory (react (deliver payload ada_online)) in
  let twice := chatHistory (react (deliver payload (deliver payload ada_online))) in
  ((exists msg, msg ∈ prev /\ ChatMessage.id msg = x) -> once = prev) /\
  ((forall msg, msg ∈ prev -> ChatMessage.id msg <> x) ->
   once = (prev ++ [new payload])%list) /\
  twice = once /\
  count_id x once = 1%nat /\
  count_id x twice = 1%nat.
Proof.
  apply (insert_delivered_twice ada_online {| eventType := INSERT; new := hello |}).
  - reflexivity.
  - vm_compute. lia.
Defined.

(** The echo of a message the sequence already holds, and the same Insert
    arriving twice on a sequence that does not. *)
Example insert_echo_scenario :
  insertMessage hello [welcomeMessage; hello] = [welcomeMessage; hello] /\
  insertMessage hello (insertMessage hello [welcomeMessage]) = [welcomeMessage; hello].
Proof. split; reflexivity. Qed.

(** The guarantee is about sequences that hold an id at most once: an
    Insert never removes a copy that is already there. *)
Example insert_keeps_earlier_copies :
  count_id (Some "m-1") (insertMessage hello [hello; hello]) = 2%nat.
Proof. reflexivity. Qed.

(** An Insert keeps every id that occurs once occurring once. *)
Lemma insertMessage_keeps_unique (newMessage : ChatMessage.t)
    (prev : list ChatMessage.t) (x : option string) :
  (count_id x prev <= 1)%nat ->
  (count_id x (insertMessage newMessage prev) <= 1)%nat.
Proof.
  intros Hle. destruct (decide (x = ChatMessage.id newMessage)) as [-> | Hne].
  - rewrite count_id_insertMessage. lia.
  - unfold insertMessage. destruct (List.find (same_id newMessage) prev); [exact Hle |].
    unfold count_id. rewrite List.filter_app, List.length_app. simpl.
    rewrite bool_decide_eq_false_2 by congruence. simpl.
    unfold count_id in Hle. lia.
Qed.

(* ===================================================================== *)
(** ** Hydration: a new identity *)
(* ===================================================================== *)

Lemma toLowerCase_nonempty_or_else (s : string) :
  or_else (Some (toLowerCase s)) "" = toLowerCase s.
Proof.
  unfold or_else. destruct (String.eqb_spec (toLowerCase s) "") as [-> | _]; reflexivity.
Qed.

Lemma isAdmin_spec (who : AuthUser) :
  isAdmin who = true <->
  exists addr listed,
    mail who = Some addr /\ listed ∈ ADMIN_EMAILS_literal /\
    toLowerCase addr = toLowerCase listed.
Proof.
  unfold isAdmin, includes. destruct (mail who) as [addr|].
  - change (toLowerCase <$> Some addr) with (Some (toLowerCase addr)).
    rewrite toLowerCase_nonempty_or_else, bool_decide_eq_true.
    unfold ADMIN_EMAILS. rewrite list_elem_of_In, List.in_map_iff. split.
    + intros (listed & Heq & Hin). exists addr, listed.
      rewrite list_elem_of_In. auto.
    + intros (addr' & listed & [= <-] & Hin & Heq). exists listed.
      rewrite <- list_elem_of_In. auto.
  - split; [intros H; vm_compute in H; discriminate |].
    intros (addr & listed & [=] & _).
Qed.

(** C8.  The profile built for an identity without a row is an admin
    profile exactly when the identity's email equals, up to letter case, an
    entry of the allow-list; its tier is Admin for an admin and Free
    otherwise; its points are 5000 either way. *)
Theorem newUserProfile_spec (who : AuthUser) :
  (is_admin (newUserProfile who) = true <->
   exists addr listed,
     mail who = Some addr /\ listed ∈ ADMIN_EMAILS_literal /\
     toLowerCase addr = toLowerCase listed) /\
  tier (newUserProfile who) = (if is_admin (newUserProfile who) then Admin else Free) /\
  points (newUserProfile who) = 5000 /\
  id (newUserProfile who) = uid who.
Proof.
  split; [apply isAdmin_spec | repeat split].
Qed.

(** An allow-listed address in another letter case, and an address off the
    list. *)
Example newUserProfile_scenarios :
  (tier (newUserProfile admin_auth) = Admin /\
   is_admin (newUserProfile admin_auth) = true /\
   points (newUserProfile admin_auth) = 5000) /\
  (tier (newUserProfile chidi_auth) = Free /\
   is_admin (newUserProfile chidi_auth) = false /\
   points (newUserProfile chidi_auth) = 5000).
Proof. vm_compute. repeat split. Qed.

(** The run of a hydration that finds no row, in terms of the answers to
    its two requests: the select and the insert of [newUserProfile].  No
    further request is issued, whatever the insert answers. *)
Lemma hydrate_absent (w : World) (who : AuthUser) :
  authUser (remote w) = Some who ->
  let first := respond (SelectEqSingle (uid who)) (remote w) in
  data first.1 = None ->
  let second := respond (InsertSelectSingle (newUserProfile who)) first.2 in
  let w' := (run fetchAndHydrateProfile w).2 in
  exchanged w w' =
    [(SelectEqSingle (uid who), first.1);
     (InsertSelectSingle (newUserProfile who), second.1)] /\
  profiles (remote w') = profiles second.2 /\
  match error second.1 with
  | Some _ =>
      session w' = session w /\
      console (browser w') =
        (console (browser w) ++ ["Error fetching/hydrating user profile:"])%list
  | None =>
      session w' =
        match data second.1 with
        | Some newProfile => Some (session_of newProfile who)
        | None => session w
        end
  end.
Proof.
  intros Hauth first Hnone second.
  assert (Hwire : drop (List.length (wire (remote w))) (wire second.2) =
                  [(SelectEqSingle (uid who), first.1);
                   (InsertSelectSingle (newUserProfile who), second.1)]).
  { subst second. rewrite respond_wire. subst first. rewrite respond_wire.
    rewrite <- app_assoc, drop_app_length. reflexivity. }
  unfold fetchAndHydrateProfile, exchanged, session, throw_if_error. simpl.
  rewrite Hauth. simpl. fold first. rewrite Hnone. simpl. fold second.
  destruct (error second.1) as [e|]; simpl.
  - destruct (bool_decide (cookieConsent (browser w) = Some "true")); simpl;
      repeat split; exact Hwire.
  - destruct (data second.1) as [newProfile|]; simpl;
      destruct (bool_decide (cookieConsent (browser w) = Some "true")); simpl;
      repeat split; exact Hwire.
Qed.

(** C3, as the code has it.  When hydration finds no row and the insert of
    the new profile fails, a uniqueness conflict included, the failure is
    logged and the session stays as it was; the select and the insert are
    the only requests, so the existing row is not fetched again. *)
Theorem hydrate_insert_failure_keeps_session (w : World) (who : AuthUser) :
  authUser (remote w) = Some who ->
  let first := respond (SelectEqSingle (uid who)) (remote w) in
  data first.1 = None ->
  let second := respond (InsertSelectSingle (newUserProfile who)) first.2 in
  is_Some (error second.1) ->
  let w' := (run fetchAndHydrateProfile w).2 in
  session w' = session w /\
  exchanged w w' =
    [(SelectEqSingle (uid who), first.1);
     (InsertSelectSingle (newUserProfile who), second.1)] /\
  console (browser w') =
    (console (browser w) ++ ["Error fetching/hydrating user profile:"])%list /\
  profiles (remote w') = table_seen first.2.
Proof.
  intros Hauth first Hnone second Herr w'.
  destruct (hydrate_absent w who Hauth Hnone) as (Hx & Htbl & Hcase).
  fold first second w' in Hx, Htbl, Hcase.
  pose proof (respond_error_keeps_table _ _ Herr) as Hkeep. fold second in Hkeep.
  destruct Herr as [e He]. rewrite He in Hcase. destruct Hcase as [Hs Hc].
  repeat split; try assumption. rewrite Htbl. exact Hkeep.
Qed.

Lemma hydrate_insert_failure_keeps_session_witness :
  let first := respond (SelectEqSingle (uid chidi_auth)) (remote chidi_racing) in
  let second := respond (InsertSelectSingle (newUserProfile chidi_auth)) first.2 in
  let w' := (run fetchAndHydrateProfile chidi_racing).2 in
  session w' = session chidi_racing /\
  exchanged chidi_racing w' =
    [(SelectEqSingle (uid chidi_auth), first.1);
     (InsertSelectSingle (newUserProfile chidi_auth), second.1)] /\
  console (browser w') =
    (console (browser chidi_racing) ++ ["Error fetching/hydrating user profile:"])%list /\
  profiles (remote w') = table_seen first.2.
Proof.
  apply (hydrate_insert_failure_keeps_session chidi_racing chidi_auth).
  - reflexivity.
  - vm_compute. reflexivity.
  - vm_compute. eauto.
Defined.

(** C3, as stated, fails.  Another session inserts the row between this
    session's select and its insert: the insert is refused as a uniqueness
    conflict, the row is there, and the session is still the provisional one
    of the sign-in (zero points), not the existing row (5000 points); only
    two requests went out. *)
Lemma hydrate_conflict_not_recovered :
  let w' := (run fetchAndHydrateProfile chidi_racing).2 in
  (snd <$> last (exchanged chidi_racing w')) = Some (failed UniqueViolation) /\
  profiles (remote w') !! "u-chidi" = Some chidi_data /\
  List.length (exchanged chidi_racing w') = 2%nat /\
  local_points w' = Some 0 /\
  session w' = session chidi_racing /\
  (fun u : CurrentUser => columns u) <$> session w' <> Some chidi_data.
Proof.
  vm_compute. repeat split. discriminate.
Qed.

(** Without the race the same hydration creates the row and adopts it. *)
Example hydrate_new_identity_scenario :
  let w' := (run fetchAndHydrateProfile chidi_alone).2 in
  local_points w' = Some 5000 /\
  profiles (remote w') !! "u-chidi" = Some chidi_data.
Proof. vm_compute. repeat split. Qed.

(* ===================================================================== *)
(** ** Hydration: the back-fill of an existing profile *)
(* ===================================================================== *)

Lemma updatedAiInfo_language (m : AiProfileInfo) :
  updatedAiInfo m !! "language" = Some (or_else (m !! "language") "English").
Proof. unfold updatedAiInfo. apply lookup_insert_eq. Qed.

Lemma updatedAiInfo_other (m : AiProfileInfo) (k : string) :
  k <> "language" ->
  updatedAiInfo m !! k =
  match m !! k with
  | Some v => Some v
  | None => defaultProfileInfo !! k
  end.
Proof.
  intros Hk. unfold updatedAiInfo, spread.
  rewrite lookup_insert_ne by congruence. rewrite lookup_union.
  destruct (m !! k), (defaultProfileInfo !! k); reflexivity.
Qed.

Lemma needsUpdate_false (m : AiProfileInfo) (k : string) :
  needsUpdate m = false -> k ∈ required_keys -> truthy (m !! k) = true.
Proof.
  unfold needsUpdate, required_keys. intros Hn Hk.
  repeat (apply orb_false_elim in Hn as [Hn ?]).
  repeat (apply elem_of_cons in Hk as [-> | Hk]);
    [apply negb_false_iff; assumption .. | inversion Hk].
Qed.

Lemma truthy_Some (o : option string) :
  truthy o = true -> exists v, o = Some v /\ v <> "".
Proof.
  destruct o as [v|]; simpl; [| discriminate].
  destruct (String.eqb_spec v ""); [discriminate |]. eauto.
Qed.

(** The row a back-fill update answers with holds the map it wrote. *)
Lemma respond_update_ai (b : Backend) (m : AiProfileInfo) (key : string) (r : ProfileRow) :
  data (respond (UpdateEqSelectSingle (ai_patch m) key) b).1 = Some r ->
  ai_profile_info r = Some m.
Proof.
  destruct (fault (next_step b)) as [e|] eqn:F.
  - destruct (respond_faulty (UpdateEqSelectSingle (ai_patch m) key) b e F) as [-> _].
    discriminate.
  - destruct (respond_served (UpdateEqSelectSingle (ai_patch m) key) b F) as [-> _].
    simpl. destruct (table_seen b !! key); simpl; [| discriminate].
    intros [= <-]. reflexivity.
Qed.

(** The personalization a hydration that finds the row leaves in the
    session, whether or not the write-back goes through. *)
Lemma hydrate_present (w : World) (who : AuthUser) (profile : ProfileRow) :
  authUser (remote w) = Some who ->
  data (respond (SelectEqSingle (uid who)) (remote w)).1 = Some profile ->
  session_ai (run fetchAndHydrateProfile w).2
  = Some (hydrated_ai (default ∅ (ai_profile_info profile))).
Proof.
  intros Hauth Hsome.
  unfold fetchAndHydrateProfile, session_ai, session, hydrated_ai. simpl.
  rewrite Hauth. simpl. rewrite Hsome. simpl.
  destruct (needsUpdate (default ∅ (ai_profile_info profile))) eqn:N; simpl.
  - set (second := respond _ _).
    pose proof (respond_update_ai _ _ _ : forall r, data second.1 = Some r -> _) as Hai.
    destruct (error second.1); simpl;
      destruct (data second.1) as [r|]; simpl;
      destruct (bool_decide (cookieConsent (browser w) = Some "true")); simpl;
      try reflexivity; exact (Hai r eq_refl).
  - destruct (ai_profile_info profile) as [m|] eqn:A; simpl in *.
    + destruct (bool_decide (cookieConsent (browser w) = Some "true")); simpl;
        exact A.
    + vm_compute in N. discriminate.
Qed.

(** C5, as the code has it.  Hydrating an existing profile leaves every
    required key present; a missing required key gets its default; every
    stored key keeps its stored value, except [language] stored as the empty
    string, which is replaced by its default. *)
Theorem hydrate_backfills (w : World) (who : AuthUser) (profile : ProfileRow) :
  authUser (remote w) = Some who ->
  data (respond (SelectEqSingle (uid who)) (remote w)).1 = Some profile ->
  let stored := default ∅ (ai_profile_info profile) in
  exists m,
    session_ai (run fetchAndHydrateProfile w).2 = Some m /\
    (forall k, k ∈ required_keys -> is_Some (m !! k)) /\
    (forall k, k ∈ required_keys -> stored !! k = None ->
               m !! k = defaultAiProfileInfo !! k) /\
    (forall k v, stored !! k = Some v -> ~ (k = "language" /\ v = "") ->
                 m !! k = Some v) /\
    (stored !! "language" = Some "" -> m !! "language" = Some "English").
Proof.
  intros Hauth Hsome stored. exists (hydrated_ai stored).
  split; [exact (hydrate_present w who profile Hauth Hsome) |].
  unfold hydrated_ai. destruct (needsUpdate stored) eqn:N.
  - repeat split.
    + intros k Hk. unfold required_keys in Hk.
      repeat (apply elem_of_cons in Hk as [-> | Hk]); [.. | inversion Hk];
        try (rewrite updatedAiInfo_other by discriminate;
             destruct (stored !! _); vm_compute; eauto).
      rewrite updatedAiInfo_language. eauto.
    + intros k Hk Hmiss. unfold required_keys in Hk.
      repeat (apply elem_of_cons in Hk as [-> | Hk]); [.. | inversion Hk];
        try (rewrite updatedAiInfo_other, Hmiss by discriminate; reflexivity).
      rewrite updatedAiInfo_language, Hmiss. reflexivity.
    + intros k v Hkv Hnot. destruct (decide (k = "language")) as [-> | Hk].
      * rewrite updatedAiInfo_language, Hkv. simpl.
        destruct (String.eqb_spec v "") as [-> | _]; [| reflexivity].
        destruct Hnot. split; reflexivity.
      * rewrite updatedAiInfo_other, Hkv by exact Hk. reflexivity.
    + intros Hempty. rewrite updatedAiInfo_language, Hempty. reflexivity.
  - repeat split.
    + intros k Hk. destruct (truthy_Some _ (needsUpdate_false stored k N Hk))
        as (v & -> & _). eauto.
    + intros k Hk Hmiss. pose proof (needsUpdate_false stored k N Hk) as Ht.
      rewrite Hmiss in Ht. discriminate.
    + intros k v Hkv _. exact Hkv.
    + intros Hempty.
      assert (Hin : "language" ∈ required_keys) by (unfold required_keys; set_solver).
      pose proof (needsUpdate_false stored "language" N Hin) as Ht.
      rewrite Hempty in Ht. discriminate.
Qed.

Lemma hydrate_backfills_witness :
  let stored := default ∅ (ai_profile_info {| id := "u-bola"; columns := bola_data |}) in
  exists m,
    session_ai (run fetchAndHydrateProfile bola_signing_in).2 = Some m /\
    (forall k, k ∈ required_keys -> is_Some (m !! k)) /\
    (forall k, k ∈ required_keys -> stored !! k = None ->
               m !! k = defaultAiProfileInfo !! k) /\
    (forall k v, stored !! k = Some v -> ~ (k = "language" /\ v = "") ->
                 m !! k = Some v) /\
    (stored !! "language" = Some "" -> m !! "language" = Some "English").
Proof.
  apply (hydrate_backfills bola_signing_in bola_auth
           {| id := "u-bola"; columns := bola_data |}).
  - reflexivity.
  - vm_compute. reflexivity.
Defined.

(** C5, as stated, fails.  The stored map holds all four keys, [language]
    as the empty string; hydration hands the session a map whose [language]
    is "English", so a present key did not keep its stored value. *)
Lemma hydrate_overwrites_empty_language :
  let stored := bola_ai in
  profiles (remote bola_signing_in) !! "u-bola" ≫= ai_profile_info = Some stored /\
  stored !! "language" = Some "" /\
  session_ai (run fetchAndHydrateProfile bola_signing_in).2 ≫= (.!! "language")
    = Some "English" /\
  ~ (exists m, session_ai (run fetchAndHydrateProfile bola_signing_in).2 = Some m /\
               keeps_stored stored m).
Proof.
  repeat split; try (vm_compute; reflexivity).
  intros (m & Hm & Hkeep).
  specialize (Hkeep "language" "" eq_refl).
  assert (Hlang : session_ai (run fetchAndHydrateProfile bola_signing_in).2
                    ≫= (.!! "language") = Some "English") by (vm_compute; reflexivity).
  rewrite Hm in Hlang. simpl in Hlang. rewrite Hkeep in Hlang. discriminate.
Qed.

(** The other keys do keep an empty stored value: only [language] goes
    through [||]. *)
Example hydrate_keeps_empty_name :
  updatedAiInfo {[ "Name" := "" ]} !! "Name" = Some "" /\
  updatedAiInfo {[ "Name" := "" ]} !! "Location" = Some "the cloud".
Proof. split; reflexivity. Qed.

(* ===================================================================== *)
(** ** More on the remote table *)
(* ===================================================================== *)

(** An update that asks for the row back and gets no error found the row,
    answers with the patched row and stores it. *)
Lemma respond_update_select_ok (p : ProfilePatch) (key : string) (b : Backend) :
  error (respond (UpdateEqSelectSingle p key) b).1 = None ->
  exists d,
    table_seen b !! key = Some d /\
    (respond (UpdateEqSelectSingle p key) b).1
      = ok {| id := key; columns := apply_patch p d |} /\
    profiles (respond (UpdateEqSelectSingle p key) b).2
      = <[key := apply_patch p d]> (table_seen b).
Proof.
  destruct (fault (next_step b)) as [e|] eqn:F.
  - destruct (respond_faulty (UpdateEqSelectSingle p key) b e F) as [-> _].
    discriminate.
  - destruct (respond_served (UpdateEqSelectSingle p key) b F) as [-> ->].
    simpl. destruct (table_seen b !! key) as [d|]; simpl; [| discriminate].
    intros _. exists d. repeat split.
Qed.

(** An update that does not ask for the row back and gets no error has
    patched the row it found, if any. *)
Lemma respond_update_ok (p : ProfilePatch) (key : string) (b : Backend) :
  error (respond (UpdateEq p key) b).1 = None ->
  (respond (UpdateEq p key) b).1 = done_no_data /\
  profiles (respond (UpdateEq p key) b).2 = alter (apply_patch p) key (table_seen b).
Proof.
  destruct (fault (next_step b)) as [e|] eqn:F.
  - destruct (respond_faulty (UpdateEq p key) b e F) as [-> _]. discriminate.
  - destruct (respond_served (UpdateEq p key) b F) as [-> ->]. simpl. auto.
Qed.

Lemma exchanged_one (w w' : World) (x : Request * Response) :
  wire (remote w') = (wire (remote w) ++ [x])%list -> exchanged w w' = [x].
Proof. unfold exchanged. intros ->. apply drop_app_length. Qed.

Lemma exchanged_two (w w' : World) (x y : Request * Response) :
  wire (remote w') = ((wire (remote w) ++ [x]) ++ [y])%list -> exchanged w w' = [x; y].
Proof.
  unfold exchanged. intros ->. rewrite <- app_assoc. apply drop_app_length.
Qed.

(** The one exchange of a call that succeeded carries no error. *)
Lemma succeeded_one (w w' : World) (q : Request) (r : Response) :
  wire (remote w') = (wire (remote w) ++ [(q, r)])%list ->
  persist_succeeded w w' -> error r = None.
Proof.
  intros Hw (q' & r' & Hlast & Hok). rewrite (exchanged_one _ _ _ Hw) in Hlast.
  injection Hlast as <- <-. exact Hok.
Qed.

(* ===================================================================== *)
(** ** The ledger, continued *)
(* ===================================================================== *)

(** A debit run from a callback that closed over [u], in whatever state the
    world is by then: the optimistic write and the rollback both start from
    [u], not from the state. *)
Lemma deductPoints_from_snapshot (w : World) (u : CurrentUser) (amount : Z) :
  is_admin u = false -> amount <= points u ->
  let q := UpdateEq (points_patch (points u - amount)) (id u) in
  let served := respond q (remote w) in
  let done := run (deductPoints (Some u) amount) w in
  wire (remote done.2) = (wire (remote w) ++ [(q, served.1)])%list /\
  remote done.2 = served.2 /\
  match error served.1 with
  | Some _ => done.1 = Returned false /\ session done.2 = Some u
  | None =>
      done.1 = Returned true /\
      session done.2 = Some (on_columns (set_points (points u - amount)) u)
  end.
Proof.
  intros Hadm Hle. unfold session. simpl.
  rewrite Hadm. destruct (Z.ltb_spec (points u) amount) as [Hlt | _]; [lia |].
  simpl.
  set (served := respond (UpdateEq (points_patch (points u - amount)) (id u)) (remote w)).
  destruct (error served.1) as [e|] eqn:E; simpl; subst served.
  - rewrite respond_wire. repeat split.
    f_equal. replace (points u - amount + amount) with
      (points (on_columns (set_points (points u - amount)) u)
       + (points u - (points u - amount))) by (simpl; lia).
    apply set_points_back.
  - rewrite respond_wire. repeat split.
Qed.

(** What a debit can leave as the session of a non-admin: the session it
    started from, or that session with the debit taken. *)
Lemma deductPoints_session (w : World) (u : CurrentUser) (amount : Z) :
  session w = Some u -> is_admin u = false ->
  let w' := (call (fun cu => deductPoints cu amount) w).2 in
  session w' = Some u \/
  (amount <= points u /\
   session w' = Some (on_columns (set_points (points u - amount)) u)).
Proof.
  intros Hs Hadm w'. destruct (Z.le_gt_cases amount (points u)) as [Hle | Hgt].
  - destruct (deductPoints_from_snapshot w u amount Hadm Hle) as (_ & _ & Hcase).
    subst w'. unfold call. unfold session in Hs. rewrite Hs.
    destruct (error _) in Hcase; destruct Hcase as [_ Hsess]; auto.
  - left. subst w'. unfold call, session in *. rewrite Hs. simpl. rewrite Hadm.
    destruct (Z.ltb_spec (points u) amount) as [_ | Hge]; [| lia].
    simpl. exact Hs.
Qed.

(** X1.  The balance of a non-admin session never goes below zero through a
    debit: whatever the amount and whatever the store answers, the session
    is still there afterwards, for the same identity, and its points are
    not negative if they were not before. *)
Theorem deductPoints_keeps_balance_nonnegative (w : World) (u : CurrentUser) (amount : Z) :
  session w = Some u -> is_admin u = false -> 0 <= points u ->
  exists u',
    session (call (fun cu => deductPoints cu amount) w).2 = Some u' /\
    0 <= points u' /\ id u' = id u /\ is_admin u' = false /\
    basket_items u' = basket_items u /\ tier u' = tier u.
Proof.
  intros Hs Hadm Hpos.
  destruct (deductPoints_session w u amount Hs Hadm) as [-> | [Hle ->]].
  - exists u. repeat split; assumption.
  - eexists. split; [reflexivity |]. simpl. repeat split; try assumption. lia.
Qed.

Lemma deductPoints_keeps_balance_nonnegative_witness :
  exists u',
    session (call (fun cu => deductPoints cu 200) ada_offline).2 = Some u' /\
    0 <= points u' /\ id u' = id ada /\ is_admin u' = false /\
    basket_items u' = basket_items ada /\ tier u' = tier ada.
Proof.
  apply (deductPoints_keeps_balance_nonnegative ada_offline ada 200).
  - reflexivity.
  - reflexivity.
  - vm_compute. discriminate.
Defined.

(** X2.  Two debits that both go through, each called after the render
    that followed the previous one, add up: the session and the stored row
    end at [points - a - b]. *)
Theorem deductPoints_twice_rendered (w : World) (u : CurrentUser) (a b : Z) :
  session w = Some u -> is_admin u = false -> a <= points u -> b <= points u - a ->
  let w1 := (call (fun cu => deductPoints cu a) w).2 in
  let w2 := (call (fun cu => deductPoints cu b) w1).2 in
  persist_succeeded w w1 -> persist_succeeded w1 w2 ->
  local_points w2 = Some (points u - a - b) /\
  requests w w2 = [UpdateEq (points_patch (points u - a)) (id u);
                   UpdateEq (points_patch (points u - a - b)) (id u)] /\
  (is_Some (table_seen (remote w1) !! id u) ->
   remote_points w2 (id u) = Some (points u - a - b)).
Proof.
  intros Hs Hadm Ha Hb w1 w2 Hok1 Hok2.
  destruct (deductPoints_from_snapshot w u a Hadm Ha) as (Hw1 & Hr1 & Hc1).
  assert (E1 : w1 = (run (deductPoints (Some u) a) w).2).
  { subst w1. unfold call. unfold session in Hs. rewrite Hs. reflexivity. }
  rewrite <- E1 in Hw1, Hr1, Hc1.
  pose proof (succeeded_one _ _ _ _ Hw1 Hok1) as He1.
  rewrite He1 in Hc1. destruct Hc1 as [_ Hs1].
  set (u1 := on_columns (set_points (points u - a)) u) in *.
  assert (Hadm1 : is_admin u1 = false) by exact Hadm.
  assert (Hb1 : b <= points u1) by exact Hb.
  destruct (deductPoints_from_snapshot w1 u1 b Hadm1 Hb1) as (Hw2 & Hr2 & Hc2).
  assert (E2 : w2 = (run (deductPoints (Some u1) b) w1).2).
  { subst w2. unfold call. unfold session in Hs1. rewrite Hs1. reflexivity. }
  rewrite <- E2 in Hw2, Hr2, Hc2.
  pose proof (succeeded_one _ _ _ _ Hw2 Hok2) as He2.
  rewrite He2 in Hc2. destruct Hc2 as [_ Hs2].
  repeat split.
  - unfold local_points. rewrite Hs2. reflexivity.
  - unfold requests. rewrite (exchanged_two w w2 _ _ (eq_trans Hw2 (f_equal (fun l => l ++ _)%list Hw1))).
    reflexivity.
  - intros [d Hd]. unfold remote_points. rewrite Hr2.
    destruct (respond_update_ok _ _ _ He2) as [_ ->].
    change (id u1) with (id u). rewrite lookup_alter_eq, Hd. reflexivity.
Qed.

Lemma deductPoints_twice_rendered_witness :
  let w1 := (call (fun cu => deductPoints cu 50) ada_online).2 in
  let w2 := (call (fun cu => deductPoints cu 5) w1).2 in
  local_points w2 = Some (points ada - 50 - 5) /\
  requests ada_online w2 = [UpdateEq (points_patch (points ada - 50)) (id ada);
                            UpdateEq (points_patch (points ada - 50 - 5)) (id ada)] /\
  (is_Some (table_seen (remote w1) !! id ada) ->
   remote_points w2 (id ada) = Some (points ada - 50 - 5)).
Proof.
  apply (deductPoints_twice_rendered ada_online ada 50 5).
  - reflexivity.
  - reflexivity.
  - vm_compute. discriminate.
  - vm_compute. discriminate.
  - eexists _, _. split; [vm_compute; reflexivity | reflexivity].
  - eexists _, _. split; [vm_compute; reflexivity | reflexivity].
Defined.

(** X3.  Two debits called from the same render close over the same
    [currentUser]: when the second goes through it overwrites the first,
    and the session and the stored row end at [points - b]; the first debit
    is not charged, whether or not it went through. *)
Theorem deductPoints_twice_same_render (w : World) (u : CurrentUser) (a b : Z) :
  is_admin u = false -> a <= points u -> b <= points u ->
  let w1 := (run (deductPoints (Some u) a) w).2 in
  let w2 := (run (deductPoints (Some u) b) w1).2 in
  persist_succeeded w1 w2 ->
  (run (deductPoints (Some u) b) w1).1 = Returned true /\
  local_points w2 = Some (points u - b) /\
  requests w w2 = [UpdateEq (points_patch (points u - a)) (id u);
                   UpdateEq (points_patch (points u - b)) (id u)] /\
  (is_Some (table_seen (remote w1) !! id u) ->
   remote_points w2 (id u) = Some (points u - b)).
Proof.
  intros Hadm Ha Hb w1 w2 Hok2.
  destruct (deductPoints_from_snapshot w u a Hadm Ha) as (Hw1 & _ & _).
  destruct (deductPoints_from_snapshot w1 u b Hadm Hb) as (Hw2 & Hr2 & Hc2).
  fold w1 in Hw1. fold w2 in Hw2, Hr2, Hc2.
  pose proof (succeeded_one _ _ _ _ Hw2 Hok2) as He2.
  rewrite He2 in Hc2. destruct Hc2 as [Hret Hs2].
  repeat split.
  - exact Hret.
  - unfold local_points. rewrite Hs2. reflexivity.
  - unfold requests. rewrite (exchanged_two w w2 _ _ (eq_trans Hw2 (f_equal (fun l => l ++ _)%list Hw1))).
    reflexivity.
  - intros [d Hd]. unfold remote_points. rewrite Hr2.
    destruct (respond_update_ok _ _ _ He2) as [_ ->].
    rewrite lookup_alter_eq, Hd. reflexivity.
Qed.

Lemma deductPoints_twice_same_render_witness :
  let w1 := (run (deductPoints (Some ada) 50) ada_online).2 in
  let w2 := (run (deductPoints (Some ada) 5) w1).2 in
  (run (deductPoints (Some ada) 5) w1).1 = Returned true /\
  local_points w2 = Some (points ada - 5) /\
  requests ada_online w2 = [UpdateEq (points_patch (points ada - 50)) (id ada);
                            UpdateEq (points_patch (points ada - 5)) (id ada)] /\
  (is_Some (table_seen (remote w1) !! id ada) ->
   remote_points w2 (id ada) = Some (points ada - 5)).
Proof.
  apply (deductPoints_twice_same_render ada_online ada 50 5).
  - reflexivity.
  - vm_compute. discriminate.
  - vm_compute. discriminate.
  - eexists _, _. split; [vm_compute; reflexivity | reflexivity].
Defined.

(* ===================================================================== *)
(** ** Confirmed writes that go through *)
(* ===================================================================== *)

(** In the branch where the answer carries an error, the call did not
    succeed. *)
Ltac not_succeeded w q served E :=
  let Hok := fresh "Hok" in
  intros Hok; exfalso;
  match type of Hok with
  | persist_succeeded _ ?w' =>
      pose proof (succeeded_one w w' q served.1 (respond_wire q (remote w)) Hok)
  end; congruence.

(** X4.  A checkout credit that goes through writes [points + granted] and
    the new tier, computed from the session, over whatever balance the
    stored row held; the session then holds the tier and points of the
    confirmed row, equal to the stored ones, and the checkout dialog is
    closed. *)
Theorem handleCheckoutSuccess_credits
    (w : World) (u : CurrentUser) (t : SubscriptionTier) (granted : Z) :
  session w = Some u ->
  let w' := (call (fun cu => handleCheckoutSuccess cu t granted) w).2 in
  persist_succeeded w w' ->
  session w' = Some (on_columns (fun d => set_points (points u + granted) (set_tier t d)) u) /\
  local_points w' = Some (points u + granted) /\
  session_tier w' = Some t /\
  remote_points w' (id u) = Some (points u + granted) /\
  isCheckoutOpen (react w') = false /\
  requests w w' = [UpdateEqSelectSingle (tier_points_patch t (points u + granted)) (id u)].
Proof.
  unfold call, local_points, session_tier, remote_points, requests, session.
  intros Hs. rewrite Hs. simpl. unfold throw_if_error.
  set (q := UpdateEqSelectSingle (tier_points_patch t (points u + granted)) (id u)).
  set (served := respond q (remote w)).
  destruct (error served.1) as [e|] eqn:E; simpl.
  - not_succeeded w q served E.
  - destruct (respond_update_select_ok _ _ _ E) as (d & Hd & Hans & Hprof).
    fold q served in Hans, Hprof. rewrite Hans. simpl. rewrite Hs. simpl.
    intros _. rewrite Hprof, lookup_insert_eq. simpl.
    rewrite (exchanged_one w _ (q, served.1)) by apply respond_wire.
    repeat split.
Qed.

Lemma handleCheckoutSuccess_credits_witness :
  let w' := (call (fun cu => handleCheckoutSuccess cu Premium 1000) ada_online).2 in
  session w' = Some (on_columns (fun d => set_points (points ada + 1000) (set_tier Premium d)) ada) /\
  local_points w' = Some (points ada + 1000) /\
  session_tier w' = Some Premium /\
  remote_points w' (id ada) = Some (points ada + 1000) /\
  isCheckoutOpen (react w') = false /\
  requests ada_online w' = [UpdateEqSelectSingle (tier_points_patch Premium (points ada + 1000)) (id ada)].
Proof.
  apply (handleCheckoutSuccess_credits ada_online ada Premium 1000).
  - reflexivity.
  - eexists _, _. split; [vm_compute; reflexivity | reflexivity].
Defined.

(** The run of the two personalization handlers once their write went
    through: the session adopts the map that was written. *)
Lemma confirm_ai_profile_info_adopts (w : World) (u : CurrentUser)
    (m : AiProfileInfo) (msg : string) :
  session w = Some u ->
  let q := UpdateEqSelectSingle (ai_patch m) (id u) in
  let prog := try_catch (answer ← supabase q; confirm_ai_profile_info answer)
                (fun _ => console_error msg) in
  persist_succeeded w (run prog w).2 ->
  session (run prog w).2 = Some (adopt_ai_profile_info m u) /\
  (profiles (remote (run prog w).2) !! id u ≫= ai_profile_info) = Some m /\
  requests w (run prog w).2 = [q].
Proof.
  unfold requests, session, confirm_ai_profile_info, throw_if_error.
  intros Hs. simpl.
  set (q := UpdateEqSelectSingle (ai_patch m) (id u)).
  set (served := respond q (remote w)).
  destruct (error served.1) as [e|] eqn:E; simpl.
  - not_succeeded w q served E.
  - destruct (respond_update_select_ok _ _ _ E) as (d & Hd & Hans & Hprof).
    fold q served in Hans, Hprof. rewrite Hans. simpl. rewrite Hs. simpl.
    intros _. rewrite Hprof, lookup_insert_eq. simpl.
    rewrite (exchanged_one w _ (q, served.1)) by apply respond_wire.
    repeat split.
Qed.

(** X5.  A language update that goes through stores the personalization
    map of the session with [language] set to the new value, and the session
    adopts that map.  Its [language] field is the new value, or "English"
    when the new value is the empty string. *)
Theorem updateLanguage_adopts (w : World) (u : CurrentUser) (newLanguage : string) :
  session w = Some u ->
  let w' := (call (fun cu => updateLanguage cu newLanguage) w).2 in
  let written := <["language" := newLanguage]> (default ∅ (ai_profile_info u)) in
  persist_succeeded w w' ->
  session_ai w' = Some written /\
  (profiles (remote w') !! id u ≫= ai_profile_info) = Some written /\
  language <$> session w' =
    Some (if String.eqb newLanguage "" then "English" else newLanguage) /\
  (forall k, k <> "language" -> written !! k = default ∅ (ai_profile_info u) !! k) /\
  local_points w' = local_points w /\
  session_basket w' = session_basket w.
Proof.
  intros Hs w' written Hok.
  assert (Ew : w' = (run (try_catch
                (answer ← supabase (UpdateEqSelectSingle (ai_patch written) (id u));
                 confirm_ai_profile_info answer)
                (fun _ => console_error "Error updating language:")) w).2).
  { subst w'. unfold call. unfold session in Hs. rewrite Hs. reflexivity. }
  rewrite Ew in Hok.
  destruct (confirm_ai_profile_info_adopts w u written _ Hs Hok) as (Hsess & Hrow & _).
  rewrite <- Ew in Hsess, Hrow.
  unfold session_ai, local_points, session_basket. rewrite Hsess, Hs. simpl.
  repeat split; try assumption.
  - unfold written. rewrite lookup_insert_eq. reflexivity.
  - intros k Hk. unfold written. apply lookup_insert_ne. congruence.
Qed.

Lemma updateLanguage_adopts_witness :
  let w' := (call (fun cu => updateLanguage cu "French") ada_online).2 in
  let written := <["language" := "French"]> (default ∅ (ai_profile_info ada)) in
  session_ai w' = Some written /\
  (profiles (remote w') !! id ada ≫= ai_profile_info) = Some written /\
  language <$> session w' =
    Some (if String.eqb "French" "" then "English" else "French") /\
  (forall k, k <> "language" -> written !! k = default ∅ (ai_profile_info ada) !! k) /\
  local_points w' = local_points ada_online /\
  session_basket w' = session_basket ada_online.
Proof.
  apply (updateLanguage_adopts ada_online ada "French").
  - reflexivity.
  - eexists _, _. split; [vm_compute; reflexivity | reflexivity].
Defined.

(** X6.  A personalization update that goes through is a shallow merge:
    every key of the patch takes the patch's value, every other key keeps
    the value the session had, and the session and the stored row hold the
    same merged map. *)
Theorem updateAiProfileInfo_merges (w : World) (u : CurrentUser)
    (updatedProfile : AiProfileInfo) :
  session w = Some u ->
  let w' := (call (fun cu => updateAiProfileInfo cu updatedProfile) w).2 in
  persist_succeeded w w' ->
  exists merged,
    session_ai w' = Some merged /\
    (profiles (remote w') !! id u ≫= ai_profile_info) = Some merged /\
    (forall k v, updatedProfile !! k = Some v -> merged !! k = Some v) /\
    (forall k, updatedProfile !! k = None ->
               merged !! k = default ∅ (ai_profile_info u) !! k) /\
    language <$> session w' = Some (or_else (merged !! "language") "English").
Proof.
  intros Hs w' Hok.
  set (merged := spread (default ∅ (ai_profile_info u)) updatedProfile).
  assert (Ew : w' = (run (try_catch
                (answer ← supabase (UpdateEqSelectSingle (ai_patch merged) (id u));
                 confirm_ai_profile_info answer)
                (fun _ => console_error "Error updating AI profile:")) w).2).
  { subst w'. unfold call. unfold session in Hs. rewrite Hs. reflexivity. }
  rewrite Ew in Hok.
  destruct (confirm_ai_profile_info_adopts w u merged _ Hs Hok) as (Hsess & Hrow & _).
  rewrite <- Ew in Hsess, Hrow. exists merged.
  unfold session_ai. rewrite Hsess. simpl. repeat split; try assumption.
  - intros k v Hk. unfold merged, spread. apply lookup_union_Some_l. exact Hk.
  - intros k Hk. unfold merged, spread. apply lookup_union_r. exact Hk.
Qed.

Lemma updateAiProfileInfo_merges_witness :
  let w' := (call (fun cu => updateAiProfileInfo cu {[ "Name" := "Ola" ]}) ada_online).2 in
  exists merged,
    session_ai w' = Some merged /\
    (profiles (remote w') !! id ada ≫= ai_profile_info) = Some merged /\
    (forall k v, ({[ "Name" := "Ola" ]} : AiProfileInfo) !! k = Some v -> merged !! k = Some v) /\
    (forall k, ({[ "Name" := "Ola" ]} : AiProfileInfo) !! k = None ->
               merged !! k = default ∅ (ai_profile_info ada) !! k) /\
    language <$> session w' = Some (or_else (merged !! "language") "English").
Proof.
  apply (updateAiProfileInfo_merges ada_online ada {[ "Name" := "Ola" ]}).
  - reflexivity.
  - eexists _, _. split; [vm_compute; reflexivity | reflexivity].
Defined.

(* ===================================================================== *)
(** ** The basket *)
(* ===================================================================== *)

(** The run of a basket write: the session takes the new list exactly when
    the answer carries no error. *)
Lemma basket_write (w : World) (u : CurrentUser) (l : list string) (msg : string) :
  session w = Some u ->
  let q := UpdateEq (basket_patch l) (id u) in
  let served := respond q (remote w) in
  let prog :=
    try_catch
      (written ← supabase q;
       throw_if_error written;;
       setCurrentUser (fun prev =>
         (fun prev => on_columns (set_basket_items l) prev) <$> prev))
      (fun _ => console_error msg) in
  exchanged w (run prog w).2 = [(q, served.1)] /\
  remote (run prog w).2 = served.2 /\
  session (run prog w).2 =
    Some (if error served.1 is Some _ then u else on_columns (set_basket_items l) u).
Proof.
  unfold session, throw_if_error. intros Hs. simpl.
  set (q := UpdateEq (basket_patch l) (id u)).
  set (served := respond q (remote w)).
  destruct (error served.1) as [e|] eqn:E; simpl;
    rewrite ?Hs; simpl;
    (split; [apply exchanged_one; apply respond_wire | split; reflexivity]).
Qed.

(** X7.  Adding to the basket keeps it a set, whatever the store answers:
    a basket without duplicates has none afterwards, nothing that was in it
    is lost, and it either is the old list or the old list with the new
    content at the end. *)
Theorem addToBasket_keeps_set (w : World) (u : CurrentUser) (content : string) :
  session w = Some u -> NoDup (basket_items u) ->
  exists l,
    session_basket (call (fun cu => addToBasket cu content) w).2 = Some l /\
    NoDup l /\
    basket_items u `prefix_of` l /\
    (l = basket_items u \/
     ((content ∉ basket_items u) /\ l = (basket_items u ++ [content])%list)).
Proof.
  intros Hs Hnd. unfold call, session_basket. unfold session in Hs. rewrite Hs.
  unfold addToBasket, includes.
  destruct (bool_decide_reflect (content ∈ basket_items u)) as [Hin | Hnin].
  - exists (basket_items u). simpl. unfold session. rewrite Hs. simpl.
    repeat split; auto.
  - destruct (basket_write w u (basket_items u ++ [content]) "Error adding to basket:" Hs)
      as (_ & _ & ->).
    destruct (error _); simpl.
    + exists (basket_items u). repeat split; auto.
    + exists (basket_items u ++ [content])%list. repeat split.
      * apply NoDup_app. repeat split; [exact Hnd | | apply NoDup_singleton].
        intros x Hx Hx'. apply list_elem_of_singleton in Hx'. subst x. contradiction.
      * apply prefix_app_r. reflexivity.
      * right. split; [exact Hnin | reflexivity].
Qed.

Lemma addToBasket_keeps_set_witness :
  exists l,
    session_basket (call (fun cu => addToBasket cu "a poem") ada_online).2 = Some l /\
    NoDup l /\
    basket_items ada `prefix_of` l /\
    (l = basket_items ada \/
     (("a poem" ∉ basket_items ada) /\ l = (basket_items ada ++ ["a poem"])%list)).
Proof.
  apply (addToBasket_keeps_set ada_online ada "a poem").
  - reflexivity.
  - apply NoDup_singleton.
Defined.

(** X8.  Adding a content that is already in the basket does nothing: no
    request is issued and the world is left as it was. *)
Theorem addToBasket_present_is_noop (w : World) (u : CurrentUser) (content : string) :
  session w = Some u -> content ∈ basket_items u ->
  call (fun cu => addToBasket cu content) w = (Returned tt, w).
Proof.
  intros Hs Hin. unfold call. unfold session in Hs. rewrite Hs.
  unfold addToBasket, includes. rewrite bool_decide_eq_true_2 by exact Hin.
  reflexivity.
Qed.

Lemma addToBasket_present_is_noop_witness :
  call (fun cu => addToBasket cu "a note") ada_online = (Returned tt, ada_online).
Proof.
  apply (addToBasket_present_is_noop ada_online ada "a note").
  - reflexivity.
  - vm_compute. left.
Defined.

(** X9.  Adding a new content that goes through puts it at the end of the
    basket, in the session and in the stored row alike. *)
Theorem addToBasket_appends (w : World) (u : CurrentUser) (content : string) :
  session w = Some u -> content ∉ basket_items u ->
  let w' := (call (fun cu => addToBasket cu content) w).2 in
  persist_succeeded w w' ->
  session_basket w' = Some (basket_items u ++ [content])%list /\
  (is_Some (table_seen (remote w) !! id u) ->
   (fun d : UserData => basket_items d) <$> profiles (remote w') !! id u
     = session_basket w') /\
  local_points w' = local_points w.
Proof.
  intros Hs Hnin w' Hok.
  destruct (basket_write w u (basket_items u ++ [content]) "Error adding to basket:" Hs)
    as (Hx & Hrem & Hsess).
  assert (Ew : w' = (run (try_catch
      (written ← supabase (UpdateEq (basket_patch (basket_items u ++ [content])) (id u));
       throw_if_error written;;
       setCurrentUser (fun prev =>
         (fun prev => on_columns (set_basket_items (basket_items u ++ [content])) prev)
           <$> prev))
      (fun _ => console_error "Error adding to basket:")) w).2).
  { subst w'. unfold call. unfold session in Hs. rewrite Hs.
    unfold addToBasket, includes. rewrite bool_decide_eq_false_2 by exact Hnin.
    reflexivity. }
  rewrite <- Ew in Hx, Hrem, Hsess.
  destruct Hok as (q & r & Hlast & Hr). rewrite Hx in Hlast.
  injection Hlast as <- <-. rewrite Hr in Hsess.
  unfold session_basket, local_points. rewrite Hsess, Hs. simpl. repeat split.
  intros [d Hd]. rewrite Hrem. destruct (respond_update_ok _ _ _ Hr) as [_ ->].
  rewrite lookup_alter_eq, Hd. reflexivity.
Qed.

Lemma addToBasket_appends_witness :
  let w' := (call (fun cu => addToBasket cu "a poem") ada_online).2 in
  session_basket w' = Some (basket_items ada ++ ["a poem"])%list /\
  (is_Some (table_seen (remote ada_online) !! id ada) ->
   (fun d : UserData => basket_items d) <$> profiles (remote w') !! id ada
     = session_basket w') /\
  local_points w' = local_points ada_online.
Proof.
  apply (addToBasket_appends ada_online ada "a poem").
  - reflexivity.
  - vm_compute. intros H. inversion H as [| ? ? ? H']; subst. inversion H'.
  - eexists _, _. split; [vm_compute; reflexivity | reflexivity].
Defined.

(** X10.  Removing from the basket by position, when the write goes
    through, drops exactly the item at that position and keeps the others in
    order; a position past the end leaves the basket as it was, although the
    list is still written. *)
Theorem removeFromBasket_drops_position (w : World) (u : CurrentUser) (index : nat) :
  session w = Some u ->
  let w' := (call (fun cu => removeFromBasket cu index) w).2 in
  persist_succeeded w w' ->
  session_basket w' = Some (take index (basket_items u) ++ drop (S index) (basket_items u))%list /\
  ((List.length (basket_items u) <= index)%nat -> session_basket w' = Some (basket_items u)) /\
  ((index < List.length (basket_items u))%nat ->
   (fun l : list string => List.length l) <$> session_basket w'
     = Some (List.length (basket_items u) - 1)%nat) /\
  requests w w' = [UpdateEq (basket_patch (delete index (basket_items u))) (id u)].
Proof.
  intros Hs w' Hok.
  destruct (basket_write w u (delete index (basket_items u))
              "Error removing from basket:" Hs) as (Hx & Hrem & Hsess).
  assert (Ew : w' = (run (try_catch
      (written ← supabase (UpdateEq (basket_patch (delete index (basket_items u))) (id u));
       throw_if_error written;;
       setCurrentUser (fun prev =>
         (fun prev => on_columns (set_basket_items (delete index (basket_items u))) prev)
           <$> prev))
      (fun _ => console_error "Error removing from basket:")) w).2).
  { subst w'. unfold call. unfold session in Hs. rewrite Hs. reflexivity. }
  rewrite <- Ew in Hx, Hrem, Hsess.
  destruct Hok as (q & r & Hlast & Hr). rewrite Hx in Hlast.
  injection Hlast as <- <-. rewrite Hr in Hsess.
  unfold session_basket, requests. rewrite Hsess, Hx. simpl. repeat split.
  - rewrite delete_take_drop. reflexivity.
  - intros Hge. rewrite delete_take_drop.
    rewrite take_ge, drop_ge, app_nil_r by lia. reflexivity.
  - intros Hlt. f_equal. rewrite length_delete; [lia |].
    apply lookup_lt_is_Some. exact Hlt.
Qed.

Lemma removeFromBasket_drops_position_witness :
  let w' := (call (fun cu => removeFromBasket cu 0) ada_online).2 in
  session_basket w' = Some (take 0 (basket_items ada) ++ drop 1 (basket_items ada))%list /\
  ((List.length (basket_items ada) <= 0)%nat -> session_basket w' = Some (basket_items ada)) /\
  ((0 < List.length (basket_items ada))%nat ->
   (fun l : list string => List.length l) <$> session_basket w'
     = Some (List.length (basket_items ada) - 1)%nat) /\
  requests ada_online w' = [UpdateEq (basket_patch (delete 0%nat (basket_items ada))) (id ada)].
Proof.
  apply (removeFromBasket_drops_position ada_online ada 0).
  - reflexivity.
  - eexists _, _. split; [vm_compute; reflexivity | reflexivity].
Defined.

(* ===================================================================== *)
(** ** No handler throws *)
(* ===================================================================== *)

Ltac by_cases_on_answers :=
  unfold confirm_ai_profile_info, throw_if_error;
  repeat (simpl;
          match goal with
          | |- context [match ?x with _ => _ end] => destruct x
          end);
  simpl; eauto.

(** X11.  No call of a profile handler ends in an uncaught exception,
    whatever the store answers: hydration, the checkout credit and the
    merge-patch handlers return, and a debit returns a boolean. *)
Theorem profile_handlers_never_throw (w : World) :
  (run fetchAndHydrateProfile w).1 = Returned tt /\
  (forall t granted,
     (call (fun cu => handleCheckoutSuccess cu t granted) w).1 = Returned tt) /\
  (forall op, (call (mergePatch op) w).1 = Returned tt) /\
  (forall amount, exists b,
     (call (fun cu => deductPoints cu amount) w).1 = Returned b) /\
  (forall payload, (run (handleRealtimeUpdate payload) w).1 = Returned tt) /\
  (forall session, (run (onAuthStateChange session) w).1 = Returned tt).
Proof.
  repeat split.
  - unfold fetchAndHydrateProfile. by_cases_on_answers.
  - intros t granted. unfold call, handleCheckoutSuccess. by_cases_on_answers.
  - intros [updatedProfile | newLanguage | content | index]; unfold call, mergePatch.
    + unfold updateAiProfileInfo. by_cases_on_answers.
    + unfold updateLanguage. by_cases_on_answers.
    + unfold addToBasket. by_cases_on_answers.
    + unfold removeFromBasket. by_cases_on_answers.
  - intros amount. unfold call, deductPoints. by_cases_on_answers.
  - intros payload. unfold handleRealtimeUpdate. by_cases_on_answers.
  - intros [who|]; reflexivity.
Qed.

(* ===================================================================== *)
(** ** Hydration, continued *)
(* ===================================================================== *)

(** X12.  With an identity signed in, the consent prompt is decided after
    every hydration, whatever the store answered: it is shown unless the
    stored consent is the string "true", and a prompt that was showing
    stays. *)
Theorem hydrate_decides_consent_prompt (w : World) (who : AuthUser) :
  authUser (remote w) = Some who ->
  let w' := (run fetchAndHydrateProfile w).2 in
  showCookieConsent (react w') =
    (showCookieConsent (react w)
     || negb (bool_decide (cookieConsent (browser w) = Some "true"))) /\
  cookieConsent (browser w') = cookieConsent (browser w) /\
  isPricingModalOpen (react w') = isPricingModalOpen (react w) /\
  chatHistory (react w') = chatHistory (react w).
Proof.
  intros Hauth. unfold fetchAndHydrateProfile. simpl. rewrite Hauth.
  unfold throw_if_error.
  repeat (simpl;
          match goal with
          | |- context [match ?x with _ => _ end] => destruct x
          end);
  simpl; rewrite ?orb_true_r, ?orb_false_r; repeat split.
Qed.

Lemma hydrate_decides_consent_prompt_witness :
  let w' := (run fetchAndHydrateProfile chidi_racing).2 in
  showCookieConsent (react w') =
    (showCookieConsent (react chidi_racing)
     || negb (bool_decide (cookieConsent (browser chidi_racing) = Some "true"))) /\
  cookieConsent (browser w') = cookieConsent (browser chidi_racing) /\
  isPricingModalOpen (react w') = isPricingModalOpen (react chidi_racing) /\
  chatHistory (react w') = chatHistory (react chidi_racing).
Proof.
  apply (hydrate_decides_consent_prompt chidi_racing chidi_auth). reflexivity.
Defined.

(** Without an identity, hydration does nothing at all: no request, no state
    change, no consent prompt. *)
Lemma hydrate_without_identity (w : World) :
  authUser (remote w) = None ->
  run fetchAndHydrateProfile w = (Returned tt, w).
Proof.
  intros Hauth. unfold fetchAndHydrateProfile. simpl. rewrite Hauth. reflexivity.
Qed.

Lemma or_else_idempotent (o : option string) (d : string) :
  d <> "" -> or_else (Some (or_else o d)) d = or_else o d.
Proof.
  intros Hd. destruct o as [s|]; simpl.
  - destruct (String.eqb_spec s "") as [-> | Hs]; simpl.
    + destruct (String.eqb_spec d ""); [contradiction | reflexivity].
    + destruct (String.eqb_spec s ""); [contradiction | reflexivity].
  - destruct (String.eqb_spec d ""); [contradiction | reflexivity].
Qed.

(** X13.  Back-filling a back-filled map changes nothing. *)
Theorem updatedAiInfo_idempotent (m : AiProfileInfo) :
  updatedAiInfo (updatedAiInfo m) = updatedAiInfo m.
Proof.
  apply map_eq. intros k. destruct (decide (k = "language")) as [-> | Hk].
  - rewrite !updatedAiInfo_language. f_equal. apply or_else_idempotent. discriminate.
  - rewrite (updatedAiInfo_other (updatedAiInfo m)) by exact Hk.
    rewrite (updatedAiInfo_other m) by exact Hk.
    destruct (m !! k); [reflexivity |]. destruct (defaultProfileInfo !! k); reflexivity.
Qed.

Lemma truthy_false_iff (o : option string) :
  truthy o = false <-> o = None \/ o = Some "".
Proof.
  destruct o as [s|]; simpl.
  - destruct (String.eqb_spec s "") as [-> | Hs]; simpl.
    + split; auto.
    + split; [discriminate | intros [[=] | [=]]; contradiction].
  - split; auto.
Qed.

(** X14.  A back-filled map still needs an update exactly when Name,
    Location or Interests was stored as the empty string: the spread keeps
    the empty value, so such a profile is written back at every hydration.
    A missing or empty [language] never has that effect. *)
Theorem needsUpdate_after_backfill (m : AiProfileInfo) :
  needsUpdate (updatedAiInfo m) = true <->
  m !! "Name" = Some "" \/ m !! "Location" = Some "" \/ m !! "Interests" = Some "".
Proof.
  unfold needsUpdate.
  rewrite !(updatedAiInfo_other m) by discriminate. rewrite updatedAiInfo_language.
  assert (Hlang : truthy (Some (or_else (m !! "language") "English")) = true).
  { destruct (m !! "language") as [s|]; simpl; [| reflexivity].
    destruct (String.eqb_spec s "") as [-> | Hs]; simpl; [reflexivity |].
    destruct (String.eqb_spec s ""); [contradiction | reflexivity]. }
  rewrite Hlang. simpl. rewrite orb_false_r.
  change (defaultProfileInfo !! "Name") with (Some "Padi").
  change (defaultProfileInfo !! "Location") with (Some "the cloud").
  change (defaultProfileInfo !! "Interests") with (Some "learning new things and chatting").
  rewrite !orb_true_iff, !negb_true_iff.
  assert (Hkey : forall (o : option string) (d : string), d <> "" ->
            truthy match o with Some v => Some v | None => Some d end = false
            <-> o = Some "").
  { intros o d Hd. rewrite truthy_false_iff. destruct o as [v|]; split.
    - intros [[=] | H]; exact H.
    - auto.
    - intros [[=] | [= ->]]. contradiction.
    - discriminate. }
  rewrite !Hkey by discriminate. tauto.
Qed.

Example needsUpdate_after_backfill_scenarios :
  needsUpdate (updatedAiInfo ∅) = false /\
  needsUpdate (updatedAiInfo bola_ai) = false /\
  needsUpdate (updatedAiInfo {[ "Name" := "" ]}) = true.
Proof. vm_compute. repeat split. Qed.

Lemma respond_insert_ok (r : ProfileRow) (b : Backend) :
  error (respond (InsertSelectSingle r) b).1 = None ->
  (respond (InsertSelectSingle r) b).1 = ok r /\
  profiles (respond (InsertSelectSingle r) b).2 = <[id r := columns r]> (table_seen b).
Proof.
  destruct (fault (next_step b)) as [e|] eqn:F.
  - destruct (respond_faulty (InsertSelectSingle r) b e F) as [-> _]. discriminate.
  - destruct (respond_served (InsertSelectSingle r) b F) as [-> ->]. simpl.
    destruct (table_seen b !! id r); simpl; [discriminate | auto].
Qed.

Lemma respond_select_found (key : string) (b : Backend) (profile : ProfileRow) :
  data (respond (SelectEqSingle key) b).1 = Some profile ->
  table_seen b !! key = Some (columns profile) /\ id profile = key /\
  profiles (respond (SelectEqSingle key) b).2 = table_seen b.
Proof.
  destruct (fault (next_step b)) as [e|] eqn:F.
  - destruct (respond_faulty (SelectEqSingle key) b e F) as [-> _]. discriminate.
  - destruct (respond_served (SelectEqSingle key) b F) as [-> ->]. simpl.
    destruct (table_seen b !! key) as [d|]; simpl; [| discriminate].
    intros [= <-]. auto.
Qed.

(** X15.  Hydrating a profile whose four required keys are stored and not
    empty is read-only: the select is the only request, the table is left as
    found, and the session is the stored row with the identity's email and
    the stored language. *)
Theorem hydrate_complete_profile_reads_only
    (w : World) (who : AuthUser) (profile : ProfileRow) :
  authUser (remote w) = Some who ->
  data (respond (SelectEqSingle (uid who)) (remote w)).1 = Some profile ->
  needsUpdate (default ∅ (ai_profile_info profile)) = false ->
  let w' := (run fetchAndHydrateProfile w).2 in
  session w' = Some (session_of profile who) /\
  requests w w' = [SelectEqSingle (uid who)] /\
  profiles (remote w') = table_seen (remote w) /\
  local_points w' = Some (points profile) /\
  console (browser w') = console (browser w).
Proof.
  intros Hauth Hsome Hneeds.
  destruct (respond_select_found _ _ _ Hsome) as (_ & _ & Htbl).
  unfold fetchAndHydrateProfile, requests, local_points, session. simpl.
  rewrite Hauth. simpl. rewrite Hsome. simpl. rewrite Hneeds. simpl.
  destruct (bool_decide (cookieConsent (browser w) = Some "true")); simpl;
    rewrite (exchanged_one w _ (SelectEqSingle (uid who),
               (respond (SelectEqSingle (uid who)) (remote w)).1))
      by apply respond_wire;
    repeat split; exact Htbl.
Qed.

Lemma hydrate_complete_profile_reads_only_witness :
  let profile := {| id := "u-ada"; columns := ada_data |} in
  let who := {| uid := "u-ada"; mail := Some "ada@example.org" |} in
  let w' := (run fetchAndHydrateProfile ada_online).2 in
  session w' = Some (session_of profile who) /\
  requests ada_online w' = [SelectEqSingle (uid who)] /\
  profiles (remote w') = table_seen (remote ada_online) /\
  local_points w' = Some (points profile) /\
  console (browser w') = console (browser ada_online).
Proof.
  apply (hydrate_complete_profile_reads_only ada_online
           {| uid := "u-ada"; mail := Some "ada@example.org" |}
           {| id := "u-ada"; columns := ada_data |}).
  - reflexivity.
  - vm_compute. reflexivity.
  - vm_compute. reflexivity.
Defined.

(** X16.  When the write-back of a back-fill fails, hydration still hands
    the session the back-filled map on top of the row it read, logs the
    failure, and leaves the table as the write found it; the write carries
    the personalization map only. *)
Theorem hydrate_backfill_write_failure
    (w : World) (who : AuthUser) (profile : ProfileRow) :
  authUser (remote w) = Some who ->
  let first := respond (SelectEqSingle (uid who)) (remote w) in
  data first.1 = Some profile ->
  let stored := default ∅ (ai_profile_info profile) in
  needsUpdate stored = true ->
  let write := UpdateEqSelectSingle (ai_patch (updatedAiInfo stored)) (uid who) in
  let second := respond write first.2 in
  is_Some (error second.1) ->
  let w' := (run fetchAndHydrateProfile w).2 in
  session w' =
    Some (session_of (on_row (set_ai_profile_info (Some (updatedAiInfo stored))) profile) who) /\
  local_points w' = Some (points profile) /\
  requests w w' = [SelectEqSingle (uid who); write] /\
  console (browser w') = (console (browser w) ++ ["Error back-filling profile:"])%list /\
  profiles (remote w') = table_seen first.2.
Proof.
  intros Hauth first Hsome stored Hneeds write second Herr.
  pose proof (respond_error_keeps_table _ _ Herr) as Hkeep. fold second in Hkeep.
  assert (Hdata : data second.1 = None).
  { destruct (data second.1) as [r|] eqn:D; [| reflexivity].
    destruct (fault (next_step first.2)) as [e|] eqn:F.
    - destruct (respond_faulty write first.2 e F) as [Hf _].
      fold second in Hf. rewrite Hf in D. discriminate.
    - destruct (respond_served write first.2 F) as [Hf _]. fold second in Hf.
      rewrite Hf in D, Herr. simpl in D, Herr.
      destruct (table_seen first.2 !! uid who); simpl in *;
        [destruct Herr as [? [=]] | discriminate]. }
  destruct Herr as [e He].
  unfold fetchAndHydrateProfile, requests, local_points, session. simpl.
  rewrite Hauth. simpl. fold first. rewrite Hsome. simpl. fold stored. rewrite Hneeds.
  simpl. fold write second. rewrite He, Hdata. simpl.
  assert (Hx : forall w', wire (remote w') = wire second.2 ->
             (exchanged w w').*1 = [SelectEqSingle (uid who); write]).
  { intros w' Hw'. rewrite (exchanged_two w w' (SelectEqSingle (uid who), first.1)
                              (write, second.1)); [reflexivity |].
    rewrite Hw'. subst second. rewrite respond_wire. subst first.
    rewrite respond_wire. reflexivity. }
  destruct (bool_decide (cookieConsent (browser w) = Some "true")); simpl;
    (repeat split; [apply Hx; reflexivity | exact Hkeep]).
Qed.

Lemma hydrate_backfill_write_failure_witness :
  let w := provisional bola_auth {[ "u-bola" := bola_data ]} [quiet; offline] in
  let profile := {| id := "u-bola"; columns := bola_data |} in
  let first := respond (SelectEqSingle (uid bola_auth)) (remote w) in
  let stored := default ∅ (ai_profile_info profile) in
  let write := UpdateEqSelectSingle (ai_patch (updatedAiInfo stored)) (uid bola_auth) in
  let w' := (run fetchAndHydrateProfile w).2 in
  session w' =
    Some (session_of (on_row (set_ai_profile_info (Some (updatedAiInfo stored))) profile)
            bola_auth) /\
  local_points w' = Some (points profile) /\
  requests w w' = [SelectEqSingle (uid bola_auth); write] /\
  console (browser w') = (console (browser w) ++ ["Error back-filling profile:"])%list /\
  profiles (remote w') = table_seen first.2.
Proof.
  apply (hydrate_backfill_write_failure
           (provisional bola_auth {[ "u-bola" := bola_data ]} [quiet; offline])
           bola_auth {| id := "u-bola"; columns := bola_data |}).
  - reflexivity.
  - vm_compute. reflexivity.
  - vm_compute. reflexivity.
  - vm_compute. eauto.
Defined.

(** X17.  For an identity without a row, when the insert goes through,
    the session and the table both hold the new profile: 5000 points, the
    default personalization, an empty basket, language "English". *)
Theorem hydrate_creates_profile (w : World) (who : AuthUser) :
  authUser (remote w) = Some who ->
  let first := respond (SelectEqSingle (uid who)) (remote w) in
  data first.1 = None ->
  let second := respond (InsertSelectSingle (newUserProfile who)) first.2 in
  error second.1 = None ->
  let w' := (run fetchAndHydrateProfile w).2 in
  session w' = Some {| row := newUserProfile who; email := mail who; language := "English" |} /\
  local_points w' = Some 5000 /\
  session_basket w' = Some [] /\
  session_ai w' = Some defaultAiProfileInfo /\
  profiles (remote w') !! uid who = Some (columns (newUserProfile who)).
Proof.
  intros Hauth first Hnone second Hok w'.
  destruct (hydrate_absent w who Hauth Hnone) as (_ & Htbl & Hcase).
  fold first second w' in Htbl, Hcase. rewrite Hok in Hcase.
  destruct (respond_insert_ok _ _ Hok) as [Hans Hprof]. fold second in Hans, Hprof.
  rewrite Hans in Hcase. simpl in Hcase.
  unfold local_points, session_basket, session_ai. rewrite Hcase, Htbl, Hprof.
  simpl. rewrite lookup_insert_eq. repeat split.
Qed.

Lemma hydrate_creates_profile_witness :
  let w' := (run fetchAndHydrateProfile chidi_alone).2 in
  session w' = Some {| row := newUserProfile chidi_auth; email := mail chidi_auth;
                       language := "English" |} /\
  local_points w' = Some 5000 /\
  session_basket w' = Some [] /\
  session_ai w' = Some defaultAiProfileInfo /\
  profiles (remote w') !! uid chidi_auth = Some (columns (newUserProfile chidi_auth)).
Proof.
  apply (hydrate_creates_profile chidi_alone chidi_auth).
  - reflexivity.
  - vm_compute. reflexivity.
  - vm_compute. reflexivity.
Defined.

#[local] Transparent respond.

(** With no step pending, a request is served from the table as it is, and
    nothing is pending afterwards. *)
Lemma respond_quiet (q : Request) (b : Backend) :
  network b = [] ->
  (respond q b).1 = (execute q (profiles b)).1 /\
  profiles (respond q b).2 = (execute q (profiles b)).2 /\
  network (respond q b).2 = [] /\
  authUser (respond q b).2 = authUser b.
Proof.
  intros Hn. unfold respond, table_seen, next_step. rewrite Hn. simpl. auto.
Qed.

#[local] Opaque respond.

(** The session a hydration that finds the row ends with: some row whose
    personalization is the hydrated map, with the email of the identity. *)
Lemma hydrate_present_session (w : World) (who : AuthUser) (profile : ProfileRow) :
  authUser (remote w) = Some who ->
  data (respond (SelectEqSingle (uid who)) (remote w)).1 = Some profile ->
  exists profile',
    session (run fetchAndHydrateProfile w).2 = Some (session_of profile' who) /\
    ai_profile_info profile'
      = Some (hydrated_ai (default ∅ (ai_profile_info profile))).
Proof.
  intros Hauth Hsome.
  unfold fetchAndHydrateProfile, session, hydrated_ai. simpl.
  rewrite Hauth. simpl. rewrite Hsome. simpl.
  destruct (needsUpdate (default ∅ (ai_profile_info profile))) eqn:N; simpl.
  - set (second := respond _ _).
    pose proof (respond_update_ai _ _ _ : forall r, data second.1 = Some r -> _) as Hai.
    destruct (error second.1); simpl;
      destruct (data second.1) as [r|]; simpl;
      destruct (bool_decide (cookieConsent (browser w) = Some "true")); simpl;
      eexists; (split; [reflexivity |]); try reflexivity; exact (Hai r eq_refl).
  - destruct (ai_profile_info profile) as [m|] eqn:A; simpl in *.
    + destruct (bool_decide (cookieConsent (browser w) = Some "true")); simpl;
        exists profile; (split; [reflexivity | exact A]).
    + vm_compute in N. discriminate.
Qed.

Lemma hydrated_ai_language (m : AiProfileInfo) (l : string) :
  m !! "language" = Some l -> l <> "" -> hydrated_ai m !! "language" = Some l.
Proof.
  intros Hm Hl. unfold hydrated_ai. destruct (needsUpdate m); [| exact Hm].
  rewrite updatedAiInfo_language, Hm. simpl.
  destruct (String.eqb_spec l ""); [contradiction | reflexivity].
Qed.

(** X18.  Round trip of the language.  With the stored row in place and
    nothing else on the network, a language update followed by a fresh
    hydration ends with that language in the session, in its personalization
    map and in the stored row. *)
Theorem updateLanguage_then_hydrate (w : World) (u : CurrentUser) (who : AuthUser)
    (newLanguage : string) :
  session w = Some u -> authUser (remote w) = Some who -> uid who = id u ->
  network (remote w) = [] -> is_Some (profiles (remote w) !! id u) ->
  newLanguage <> "" ->
  let w1 := (call (fun cu => updateLanguage cu newLanguage) w).2 in
  let w2 := (run fetchAndHydrateProfile w1).2 in
  language <$> session w2 = Some newLanguage /\
  session_ai w2 ≫= (.!! "language") = Some newLanguage /\
  (profiles (remote w1) !! id u ≫= ai_profile_info) ≫= (.!! "language")
    = Some newLanguage.
Proof.
  intros Hs Hauth Huid Hnet [d Hd] Hl w1 w2.
  set (written := <["language" := newLanguage]> (default ∅ (ai_profile_info u))).
  set (q := UpdateEqSelectSingle (ai_patch written) (id u)).
  destruct (respond_quiet q (remote w) Hnet) as (Hans & Hprof & Hnet1 & Hauth1).
  simpl in Hans, Hprof. rewrite Hd in Hans, Hprof. simpl in Hans, Hprof.
  assert (Hrem : remote w1 = (respond q (remote w)).2).
  { subst w1. unfold call. unfold session in Hs. rewrite Hs.
    unfold updateLanguage, confirm_ai_profile_info, throw_if_error. simpl.
    fold written q. rewrite Hans. simpl. reflexivity. }
  destruct (respond_quiet (SelectEqSingle (uid who)) (remote w1)) as (Hsel & _ & _ & _).
  { rewrite Hrem. exact Hnet1. }
  rewrite Hrem, Hprof, Huid in Hsel. simpl in Hsel. rewrite lookup_insert_eq in Hsel.
  simpl in Hsel. rewrite <- Huid, <- Hrem in Hsel.
  assert (Hauth2 : authUser (remote w1) = Some who) by (rewrite Hrem, Hauth1; exact Hauth).
  assert (Hdata : data (respond (SelectEqSingle (uid who)) (remote w1)).1
                  = Some {| id := id u; columns := apply_patch (ai_patch written) d |}).
  { rewrite Hsel, Huid. reflexivity. }
  destruct (hydrate_present_session w1 who _ Hauth2 Hdata) as (profile' & Hsess & Hai).
  fold w2 in Hsess. simpl in Hai.
  assert (Hlang : hydrated_ai written !! "language" = Some newLanguage).
  { apply hydrated_ai_language; [| exact Hl]. unfold written. apply lookup_insert_eq. }
  unfold session_ai. rewrite Hsess. simpl. rewrite Hai. simpl. rewrite Hlang. simpl.
  repeat split.
  - destruct (String.eqb_spec newLanguage ""); [contradiction | reflexivity].
  - rewrite Hrem, Hprof, lookup_insert_eq. simpl. unfold written.
    apply lookup_insert_eq.
Qed.

Lemma updateLanguage_then_hydrate_witness :
  let w1 := (call (fun cu => updateLanguage cu "Yoruba") ada_online).2 in
  let w2 := (run fetchAndHydrateProfile w1).2 in
  language <$> session w2 = Some "Yoruba" /\
  session_ai w2 ≫= (.!! "language") = Some "Yoruba" /\
  (profiles (remote w1) !! id ada ≫= ai_profile_info) ≫= (.!! "language")
    = Some "Yoruba".
Proof.
  apply (updateLanguage_then_hydrate ada_online ada
           {| uid := "u-ada"; mail := Some "ada@example.org" |} "Yoruba").
  - reflexivity.
  - reflexivity.
  - reflexivity.
  - reflexivity.
  - vm_compute. eauto.
  - discriminate.
Defined.

(* ===================================================================== *)
(** ** Sign-in events *)
(* ===================================================================== *)

(** X19.  Between the sign-in event of a fresh session and its hydration
    the session holds zero points and no admin flag, whoever signs in: a
    debit of any positive amount is refused without a request, and the
    pricing modal opens. *)
Theorem provisional_session_cannot_pay (w : World) (who : AuthUser) (amount : Z) :
  session w = None -> 0 < amount ->
  let w0 := (run (onAuthStateChange (Some who)) w).2 in
  let w' := (call (fun cu => deductPoints cu amount) w0).2 in
  (call (fun cu => deductPoints cu amount) w0).1 = Returned false /\
  local_points w0 = Some 0 /\
  session w' = session w0 /\
  remote w' = remote w /\
  isPricingModalOpen (react w') = true.
Proof.
  unfold call, local_points, session. intros Hs Hpos. simpl. rewrite Hs. simpl.
  destruct (Z.ltb_spec 0 amount) as [_ | Hge]; [| lia]. simpl. rewrite Hs.
  repeat split.
Qed.

Lemma provisional_session_cannot_pay_witness :
  let w := {| react := {| currentUser := None; chatHistory := [initialMessage];
                          isPricingModalOpen := false; isCheckoutOpen := false;
                          showCookieConsent := false |};
              remote := remote root_online; browser := browser root_online |} in
  let w0 := (run (onAuthStateChange (Some admin_auth)) w).2 in
  let w' := (call (fun cu => deductPoints cu 1) w0).2 in
  (call (fun cu => deductPoints cu 1) w0).1 = Returned false /\
  local_points w0 = Some 0 /\
  session w' = session w0 /\
  remote w' = remote w /\
  isPricingModalOpen (react w') = true.
Proof.
  apply (provisional_session_cannot_pay
           {| react := {| currentUser := None; chatHistory := [initialMessage];
                          isPricingModalOpen := false; isCheckoutOpen := false;
                          showCookieConsent := false |};
              remote := remote root_online; browser := browser root_online |}
           admin_auth 1).
  - reflexivity.
  - reflexivity.
Defined.

(** X20.  A sign-in event over an existing session replaces the id and the
    email by those of the event and keeps everything else: tier, points,
    admin flag, personalization and basket are the ones held before, for
    whichever identity the event names; the language is kept unless it was
    empty.  Nothing is requested. *)
Theorem sign_in_keeps_columns (w : World) (prev : CurrentUser) (who : AuthUser) :
  session w = Some prev ->
  let w' := (run (onAuthStateChange (Some who)) w).2 in
  exists cu,
    session w' = Some cu /\
    id cu = uid who /\ email cu = mail who /\
    columns cu = columns prev /\
    language cu = (if String.eqb (language prev) "" then "English" else language prev) /\
    remote w' = remote w /\
    (forall amount, is_admin prev = true ->
       (call (fun c => deductPoints c amount) w').1 = Returned true).
Proof.
  unfold session, call. intros Hs. simpl. rewrite Hs. simpl.
  eexists. split; [reflexivity |]. simpl. repeat split.
  intros amount Hadm. rewrite Hadm. reflexivity.
Qed.

Lemma sign_in_keeps_columns_witness :
  let w' := (run (onAuthStateChange (Some chidi_auth)) root_online).2 in
  exists cu,
    session w' = Some cu /\
    id cu = uid chidi_auth /\ email cu = mail chidi_auth /\
    columns cu = columns root /\
    language cu = (if String.eqb (language root) "" then "English" else language root) /\
    remote w' = remote root_online /\
    (forall amount, is_admin root = true ->
       (call (fun c => deductPoints c amount) w').1 = Returned true).
Proof.
  apply (sign_in_keeps_columns root_online root chidi_auth). reflexivity.
Defined.

(* ===================================================================== *)
(** ** The transcript: realtime updates *)
(* ===================================================================== *)

Lemma replaceMessage_lookup (updatedMessage : ChatMessage.t)
    (prev : list ChatMessage.t) (i : nat) :
  replaceMessage updatedMessage prev !! i
  = (fun msg => if same_id updatedMessage msg then updatedMessage else msg) <$> prev !! i.
Proof. unfold replaceMessage. apply list_lookup_fmap. Qed.

Lemma replaceMessage_ids (updatedMessage : ChatMessage.t) (prev : list ChatMessage.t) :
  List.map ChatMessage.id (replaceMessage updatedMessage prev)
  = List.map ChatMessage.id prev.
Proof.
  unfold replaceMessage. rewrite List.map_map. apply List.map_ext.
  intros msg. unfold same_id.
  destruct (bool_decide_reflect (ChatMessage.id msg = ChatMessage.id updatedMessage));
    congruence.
Qed.

Lemma count_id_by_ids (x : option string) (l : list ChatMessage.t) :
  count_id x l
  = List.length (List.filter (fun o => bool_decide (o = x)) (List.map ChatMessage.id l)).
Proof.
  unfold count_id. induction l as [| a l IH]; simpl; [reflexivity |].
  destruct (bool_decide (ChatMessage.id a = x)); simpl; rewrite IH; reflexivity.
Qed.

Lemma replaceMessage_count_id (updatedMessage : ChatMessage.t)
    (prev : list ChatMessage.t) (x : option string) :
  count_id x (replaceMessage updatedMessage prev) = count_id x prev.
Proof. rewrite !count_id_by_ids, replaceMessage_ids. reflexivity. Qed.

(** X21.  An Update replaces, at its position, every message that carries
    the id of the updated row and touches nothing else: the transcript keeps
    its length and, position by position, its ids. *)
Theorem replaceMessage_in_place (updatedMessage : ChatMessage.t)
    (prev : list ChatMessage.t) :
  List.length (replaceMessage updatedMessage prev) = List.length prev /\
  List.map ChatMessage.id (replaceMessage updatedMessage prev)
    = List.map ChatMessage.id prev /\
  (forall i msg, prev !! i = Some msg ->
     replaceMessage updatedMessage prev !! i =
       Some (if bool_decide (ChatMessage.id msg = ChatMessage.id updatedMessage)
             then updatedMessage else msg)) /\
  (forall x, count_id x (replaceMessage updatedMessage prev) = count_id x prev).
Proof.
  repeat split.
  - unfold replaceMessage. apply List.length_map.
  - apply replaceMessage_ids.
  - intros i msg Hi. rewrite replaceMessage_lookup, Hi. reflexivity.
  - intros x. apply replaceMessage_count_id.
Qed.

(** An Update for an id the transcript does not hold is dropped: the
    transcript is left as it was. *)
Lemma replaceMessage_unknown_id (updatedMessage : ChatMessage.t)
    (prev : list ChatMessage.t) :
  count_id (ChatMessage.id updatedMessage) prev = 0%nat ->
  replaceMessage updatedMessage prev = prev.
Proof.
  unfold count_id, replaceMessage. induction prev as [| msg prev IH]; simpl.
  - reflexivity.
  - unfold same_id at 1.
    destruct (bool_decide (ChatMessage.id msg = ChatMessage.id updatedMessage));
      simpl; [discriminate |].
    intros H. rewrite (IH H). reflexivity.
Qed.

(** X22.  Of two Updates for the same id the later one wins: applying both
    leaves what the later one alone would leave. *)
Theorem replaceMessage_last_wins (first second : ChatMessage.t)
    (prev : list ChatMessage.t) :
  ChatMessage.id first = ChatMessage.id second ->
  replaceMessage second (replaceMessage first prev) = replaceMessage second prev.
Proof.
  intros Hid. unfold replaceMessage. rewrite List.map_map. apply List.map_ext.
  intros msg. unfold same_id. rewrite Hid.
  destruct (bool_decide_reflect (ChatMessage.id msg = ChatMessage.id second)) as [He | Hne].
  - rewrite <- Hid. rewrite bool_decide_eq_true_2 by reflexivity. reflexivity.
  - rewrite bool_decide_eq_false_2 by exact Hne. reflexivity.
Qed.

Lemma replaceMessage_last_wins_witness :
  replaceMessage hello_streamed (replaceMessage hello_reply [hello; hello_reply])
  = replaceMessage hello_streamed [hello; hello_reply].
Proof.
  apply (replaceMessage_last_wins hello_reply hello_streamed [hello; hello_reply]).
  reflexivity.
Defined.

(** X23.  No realtime event shortens or reorders the transcript: after an
    Insert the old transcript is a prefix of the new one, after an Update or
    a Delete event the ids are, position by position, the old ones.  A
    Delete event changes nothing at all. *)
Theorem realtime_never_drops (w : World) (payload : Payload) :
  let prev := chatHistory (react w) in
  let next := chatHistory (react (deliver payload w)) in
  (List.length prev <= List.length next)%nat /\
  (eventType payload = INSERT -> prev `prefix_of` next) /\
  (eventType payload <> INSERT ->
   List.map ChatMessage.id next = List.map ChatMessage.id prev) /\
  (eventType payload = DELETE -> deliver payload w = w) /\
  session (deliver payload w) = session w /\
  remote (deliver payload w) = remote w.
Proof.
  unfold deliver, handleRealtimeUpdate.
  destruct (eventType payload) eqn:E; simpl.
  - unfold insertMessage.
    destruct (List.find (same_id (new payload)) (chatHistory (react w))).
    + repeat split; try reflexivity; try discriminate; congruence.
    + rewrite List.length_app. simpl.
      repeat split; try discriminate; try lia; try congruence.
      intros _. apply prefix_app_r. reflexivity.
  - pose proof (replaceMessage_ids (new payload) (chatHistory (react w))) as Hids.
    assert (Hlen : List.length (replaceMessage (new payload) (chatHistory (react w)))
                   = List.length (chatHistory (react w)))
      by (unfold replaceMessage; apply List.length_map).
    repeat split; try discriminate; try (intros _; exact Hids). lia.
  - repeat split; try discriminate. lia.
Qed.

(** X24.  The order of an Insert and an Update of the same new row
    matters: Insert then Update leaves the updated row at the end of the
    transcript, while an Update that arrives first is dropped and the Insert
    then appends the row as inserted. *)
Theorem insert_update_order (inserted updated : ChatMessage.t)
    (prev : list ChatMessage.t) :
  ChatMessage.id updated = ChatMessage.id inserted ->
  count_id (ChatMessage.id inserted) prev = 0%nat ->
  replaceMessage updated (insertMessage inserted prev) = (prev ++ [updated])%list /\
  insertMessage inserted (replaceMessage updated prev) = (prev ++ [inserted])%list.
Proof.
  intros Hid Hzero. split.
  - rewrite insertMessage_absent by exact Hzero.
    unfold replaceMessage. rewrite List.map_app. simpl.
    unfold same_id at 2. rewrite bool_decide_eq_true_2 by congruence.
    f_equal. apply (replaceMessage_unknown_id updated prev). rewrite Hid. exact Hzero.
  - rewrite (replaceMessage_unknown_id updated prev) by (rewrite Hid; exact Hzero).
    apply insertMessage_absent. exact Hzero.
Qed.

Lemma insert_update_order_witness :
  replaceMessage hello_streamed (insertMessage hello_reply [hello])
    = ([hello] ++ [hello_streamed])%list /\
  insertMessage hello_reply (replaceMessage hello_streamed [hello])
    = ([hello] ++ [hello_reply])%list.
Proof.
  apply (insert_update_order hello_reply hello_streamed [hello]); reflexivity.
Defined.

(** X25.  Realtime events keep the transcript free of duplicate ids:
    if every id occurs at most once, it still does after any sequence of
    events. *)
Theorem realtime_keeps_ids_unique (payloads : list Payload) (w : World) :
  (forall x, (count_id x (chatHistory (react w)) <= 1)%nat) ->
  forall x,
    (count_id x (chatHistory (react (foldl (fun v p => deliver p v) w payloads))) <= 1)%nat.
Proof.
  revert w. induction payloads as [| payload payloads IH]; intros w Hw; simpl.
  - exact Hw.
  - apply IH. intros x. unfold deliver, handleRealtimeUpdate.
    destruct (eventType payload); simpl.
    + apply insertMessage_keeps_unique. apply Hw.
    + rewrite replaceMessage_count_id. apply Hw.
    + apply Hw.
Qed.

Lemma realtime_keeps_ids_unique_witness :
    (count_id (Some "m-1") (chatHistory (react (foldl (fun v p => deliver p v) ada_online
        [ {| eventType := INSERT; new := hello |};
          {| eventType := INSERT; new := hello |};
          {| eventType := UPDATE; new := hello |} ]))) <= 1)%nat.
Proof.
  apply (realtime_keeps_ids_unique
           [ {| eventType := INSERT; new := hello |};
             {| eventType := INSERT; new := hello |};
             {| eventType := UPDATE; new := hello |} ] ada_online).
  intros x. unfold count_id. simpl. destruct (bool_decide _); simpl; lia.
Defined.

(* ===================================================================== *)
(** ** The transcript: loading, appending, clearing *)
(* ===================================================================== *)

(** X26.  Loading the history sends one select for the identity.  On an
    error the transcript is left as it was and the error is logged; on rows
    the transcript becomes those rows, or the single welcome message when
    there are none, so that it is never empty after a load that went
    through. *)
Theorem fetchHistory_loads (w : Transcript.World) (owner : string) :
  let answer := hd Transcript.unreachable (Transcript.answers w) in
  let w' := (Transcript.run (Transcript.fetchHistory owner) w).2 in
  Transcript.sent w' = (Transcript.sent w ++ [Transcript.SelectEqOrder owner])%list /\
  (is_Some (Transcript.error answer) ->
   Transcript.chatHistory w' = Transcript.chatHistory w /\
   Transcript.console w' =
     (Transcript.console w ++ ["Error fetching chat history:"])%list) /\
  (Transcript.error answer = None ->
   forall rows, Transcript.data answer = Some rows ->
     Transcript.chatHistory w' = (if rows is [] then [welcomeMessage] else rows) /\
     Transcript.chatHistory w' <> [] /\
     (rows = [] -> hasHistory (Transcript.chatHistory w') = false)).
Proof.
  unfold Transcript.fetchHistory. simpl.
  destruct (Transcript.error (hd Transcript.unreachable (Transcript.answers w)))
    as [e|] eqn:E; simpl.
  - split; [reflexivity | split; [intros _; split; reflexivity | discriminate]].
  - split; [destruct (Transcript.data _); [destruct (_ =? _)%nat |]; reflexivity |].
    split; [intros [? [=]] |].
    intros _ rows D. rewrite D. destruct rows as [| row rows]; simpl.
    + repeat split. discriminate.
    + repeat split; discriminate.
Qed.

Example fetchHistory_scenarios :
  Transcript.chatHistory
    (Transcript.run (Transcript.fetchHistory "u-ada")
       (Transcript.answered (Transcript.rows_ok [hello; hello_reply]) [initialMessage])).2
    = [hello; hello_reply] /\
  Transcript.chatHistory
    (Transcript.run (Transcript.fetchHistory "u-ada")
       (Transcript.answered (Transcript.rows_ok []) [initialMessage])).2
    = [welcomeMessage] /\
  Transcript.chatHistory
    (Transcript.run (Transcript.fetchHistory "u-ada")
       (Transcript.answered Transcript.unreachable [initialMessage])).2
    = [initialMessage].
Proof. repeat split. Qed.

(** X27.  Appending messages sends them in one insert, in the order given,
    each with its role and content and tagged with the id of the session; it
    returns the rows the store answers, or the empty list on any error, and
    never touches the local transcript. *)
Theorem addMessages_tags_and_returns (w : Transcript.World) (cu : CurrentUser)
    (msgs : list ChatMessage.t) :
  let answer := hd Transcript.unreachable (Transcript.answers w) in
  let done := Transcript.run (Transcript.addMessages (Some cu) msgs) w in
  exists rows,
    Transcript.sent done.2 = (Transcript.sent w ++ [Transcript.InsertSelect rows])%list /\
    List.length rows = List.length msgs /\
    Forall (fun row => ChatMessage.user_id row = Some (id cu)) rows /\
    List.map ChatMessage.content rows = List.map ChatMessage.content msgs /\
    List.map ChatMessage.role rows = List.map ChatMessage.role msgs /\
    done.1 = Returned (if Transcript.error answer is Some _ then []
                       else default [] (Transcript.data answer)) /\
    Transcript.chatHistory done.2 = Transcript.chatHistory w.
Proof.
  exists (List.map (Transcript.owned_by (id cu)) msgs).
  unfold Transcript.addMessages, Transcript.throw_if_error. simpl.
  assert (Hshape :
    List.length (List.map (Transcript.owned_by (id cu)) msgs) = List.length msgs /\
    Forall (fun row => ChatMessage.user_id row = Some (id cu))
      (List.map (Transcript.owned_by (id cu)) msgs) /\
    List.map ChatMessage.content (List.map (Transcript.owned_by (id cu)) msgs)
      = List.map ChatMessage.content msgs /\
    List.map ChatMessage.role (List.map (Transcript.owned_by (id cu)) msgs)
      = List.map ChatMessage.role msgs).
  { rewrite List.length_map, !List.map_map. repeat split.
    apply Forall_forall. intros row Hrow. apply list_elem_of_In in Hrow.
    apply List.in_map_iff in Hrow. destruct Hrow as (msg & <- & _). reflexivity. }
  destruct Hshape as (Hlen & Htag & Hcontent & Hrole).
  destruct (Transcript.error (hd Transcript.unreachable (Transcript.answers w)));
    simpl; repeat split; assumption.
Qed.

(** X28.  Clearing the history sends one delete for the identity.  When it
    goes through the transcript is the single welcome message, which does
    not count as history; on an error the transcript is left as it was. *)
Theorem handleClearHistory_resets (w : Transcript.World) (cu : CurrentUser) :
  let answer := hd Transcript.unreachable (Transcript.answers w) in
  let w' := (Transcript.run (Transcript.handleClearHistory (Some cu)) w).2 in
  Transcript.sent w' = (Transcript.sent w ++ [Transcript.DeleteEq (id cu)])%list /\
  (Transcript.error answer = None ->
   Transcript.chatHistory w' = [welcomeMessage] /\
   hasHistory (Transcript.chatHistory w') = false) /\
  (is_Some (Transcript.error answer) ->
   Transcript.chatHistory w' = Transcript.chatHistory w /\
   Transcript.console w' = (Transcript.console w ++ ["Error clearing history: "])%list).
Proof.
  unfold Transcript.handleClearHistory, Transcript.throw_if_error. simpl.
  destruct (Transcript.error (hd Transcript.unreachable (Transcript.answers w)))
    as [e|] eqn:E; simpl.
  - split; [reflexivity | split; [discriminate | intros _; split; reflexivity]].
  - split; [reflexivity | split; [intros _; split; reflexivity | intros [? [=]]]].
Qed.

(** X29.  Appending and streaming never change the local transcript and
    never throw; without a session neither sends anything, and a streamed
    update with an empty id sends nothing either. *)
Theorem append_and_stream_are_remote_only (w : Transcript.World)
    (currentUser : option CurrentUser) (msgs : list ChatMessage.t)
    (key content : string) :
  let added := Transcript.run (Transcript.addMessages currentUser msgs) w in
  let streamed :=
    Transcript.run (Transcript.updateStreamedMessage currentUser key content) w in
  Transcript.chatHistory added.2 = Transcript.chatHistory w /\
  Transcript.chatHistory streamed.2 = Transcript.chatHistory w /\
  (exists rows, added.1 = Returned rows) /\
  streamed.1 = Returned tt /\
  (currentUser = None -> added = (Returned [], w) /\ streamed = (Returned tt, w)) /\
  (key = "" -> streamed = (Returned tt, w)) /\
  (is_Some currentUser -> key <> "" ->
   Transcript.sent streamed.2
     = (Transcript.sent w ++ [Transcript.UpdateContentEq content key])%list).
Proof.
  unfold Transcript.addMessages, Transcript.updateStreamedMessage,
    Transcript.throw_if_error.
  destruct currentUser as [cu|]; simpl.
  - destruct (String.eqb_spec key "") as [-> | Hkey]; simpl;
      destruct (Transcript.error (hd Transcript.unreachable (Transcript.answers w)));
      simpl; repeat split; eauto; try discriminate; try contradiction.
  - repeat split; eauto. intros [? [=]].
Qed.

(** X30.  The transcript never becomes empty again: whatever sequence of
    effects, handler calls and realtime events happens and whatever the
    store answers, a transcript that holds a message still holds one. *)
Theorem transcript_never_empties (actions : list Transcript.Action)
    (w : Transcript.World) :
  Transcript.chatHistory w <> [] ->
  Transcript.chatHistory (foldl (fun v a => Transcript.perform a v) w actions) <> [].
Proof.
  revert w. induction actions as [| a actions IH]; intros w Hw; simpl; [exact Hw |].
  apply IH. clear IH.
  destruct a as [uid' | cu | cu msgs | cu key content | payload]; simpl.
  - unfold Transcript.chatHistoryEffect, Transcript.fetchHistory.
    destruct (truthy uid'); simpl; [| discriminate].
    destruct (Transcript.error _); simpl; [exact Hw |].
    destruct (Transcript.data _) as [rows|]; simpl; [| exact Hw].
    destruct rows; simpl; discriminate.
  - unfold Transcript.handleClearHistory, Transcript.throw_if_error.
    destruct cu as [cu|]; simpl; [| exact Hw].
    destruct (Transcript.error _); simpl; [exact Hw | discriminate].
  - unfold Transcript.addMessages, Transcript.throw_if_error.
    destruct cu as [cu|]; simpl; [| exact Hw].
    destruct (Transcript.error _); simpl; exact Hw.
  - unfold Transcript.updateStreamedMessage, Transcript.throw_if_error.
    destruct cu as [cu|]; simpl; [| exact Hw].
    destruct (String.eqb key ""); simpl; [exact Hw |].
    destruct (Transcript.error _); simpl; exact Hw.
  - unfold Transcript.onRealtime. destruct (eventType payload); simpl.
    + unfold insertMessage. destruct (List.find _ _); [exact Hw |].
      destruct (Transcript.chatHistory w); discriminate.
    + unfold replaceMessage. destruct (Transcript.chatHistory w); [contradiction |].
      discriminate.
    + exact Hw.
Qed.

Lemma transcript_never_empties_witness :
  Transcript.chatHistory
    (foldl (fun v a => Transcript.perform a v)
       (Transcript.answered Transcript.done_ok [hello])
       [Transcript.Clear (Some ada);
        Transcript.Realtime {| eventType := DELETE; new := hello |};
        Transcript.Effect (Some "u-ada")]) <> [].
Proof.
  apply (transcript_never_empties
           [Transcript.Clear (Some ada);
            Transcript.Realtime {| eventType := DELETE; new := hello |};
            Transcript.Effect (Some "u-ada")]
           (Transcript.answered Transcript.done_ok [hello])).
  discriminate.
Defined.
